(** * instrument-context-module: a shallow embedding and its properties

    The module exports one factory, [(handleContext, handleModule) => {...}],
    which returns two wrapper functions, [context] and [module].  Each of
    them clones the regular expression it is given and replaces the clone's
    [test] property by an interceptor that records the last matched string
    and calls [report].

    The embedding keeps what the JavaScript has:
    - regular expressions are objects in a heap, addressed by reference, so
      that "the clone" and "the caller's object" are different things;
    - the closure variables of the factory are the fields of [State];
    - an exception leaves the state as it was at the [throw];
    - the regular-expression engine ([RegExp.prototype.test]) and the npm
      package [regexp-clone] are parameters;
    - a handler is a function on the world it acts upon: it returns, and
      it does not call back into the instrumenter. Every call of a handler
      is also recorded, with its arguments, in the trace [calls]. *)

From Stdlib Require Import ZArith String List Bool Lia.
From stdpp Require Import base option list.

Open Scope string_scope.
Open Scope list_scope.

(** ** Regular-expression objects *)

(** The fields of a [RegExp] that matter to matching. [lastIndex] is the
    match position that [test] reads and writes when the pattern has the
    [g] or [y] flag. *)
Record RegExp : Type := mkRegExp {
  source : string;
  flags : string;
  lastIndex : Z
}.

(** What the property [test] of a regular-expression object resolves to:
    the prototype's function (no own property), or one of the two
    interceptors that the instrumenter installs as an own property. *)
Inductive TestProp : Type :=
  | ProtoTest
  | ContextWrapper
  | ModuleWrapper.

Record RegExpObj : Type := mkObj {
  fields : RegExp;
  test_prop : TestProp
}.

(** References are indices into the heap; [new RegExp] appends. *)
Abbreviation loc := nat.

Definition with_lastIndex (o : RegExpObj) (i : Z) : RegExpObj :=
  mkObj (mkRegExp (source (fields o)) (flags (fields o)) i) (test_prop o).

Definition with_test (o : RegExpObj) (t : TestProp) : RegExpObj :=
  mkObj (fields o) t.

(** ** JavaScript truthiness and strict inequality, at the types used *)

(** [lastContext] and [lastModule] hold [null] or a string; [null] and the
    empty string are falsy. *)
Definition truthy_str (v : option string) : bool :=
  match v with
  | Some s => negb (String.eqb s "")
  | None => false
  end.

(** A variable that holds [undefined] or an object or function. *)
Definition truthy_obj {A : Type} (v : option A) : bool :=
  match v with
  | Some _ => true
  | None => false
  end.

(** [s !== v] for a string [s] and [v] a string or [null]. *)
Definition strict_neq (s : string) (v : option string) : bool :=
  match v with
  | Some t => negb (String.eqb s t)
  | None => true
  end.

(** ** Calls of the two handlers, as the instrumenter makes them *)

Inductive Call : Type :=
  | CallContext (context : option string) (contextRegex moduleRegex : option loc)
  | CallModule (module context : option string) (contextRegex moduleRegex : option loc).

Definition is_context_call (c : Call) : bool :=
  match c with CallContext _ _ _ => true | CallModule _ _ _ _ => false end.

Definition is_module_call (c : Call) : bool :=
  match c with CallContext _ _ _ => false | CallModule _ _ _ _ => true end.

(** How a call ends: with a value, or with a thrown [Error]. *)
Inductive Completion (A : Type) : Type :=
  | Normal (a : A)
  | Throw (message : string).
Arguments Normal {A} a.
Arguments Throw {A} message.

Section Instrumenter.

(** Whatever the handlers act upon (a console, a log). *)
Context {W : Type}.

(** [RegExp.prototype.test]: the result and the new [lastIndex]. *)
Variable native_test : RegExp -> string -> bool * Z.

(** [regexp-clone]: the fields of the copy, from the fields of the
    original. *)
Variable regexpClone : RegExp -> RegExp.

(** [handleContext(context, contextRegex, moduleRegex)] and
    [handleModule(module, context, contextRegex, moduleRegex)]. *)
Definition ContextHandler : Type :=
  option string -> option loc -> option loc -> W -> W.
Definition ModuleHandler : Type :=
  option string -> option string -> option loc -> option loc -> W -> W.

(** The factory's two parameters; [None] is a handler that was not
    passed. *)
Variable handleContext : option ContextHandler.
Variable handleModule : option ModuleHandler.

(** The closure variables of one instrumenter, the heap they point into,
    the handlers' world, and the calls made so far (oldest first). *)
Record State : Type := mkState {
  heap : list RegExpObj;
  contextRegex : option loc;
  moduleRegex : option loc;
  lastContext : option string;
  lastModule : option string;
  reportedContext : bool;
  world : W;
  calls : list Call
}.

Definition set_heap (h : list RegExpObj) (st : State) : State :=
  mkState h (contextRegex st) (moduleRegex st) (lastContext st)
          (lastModule st) (reportedContext st) (world st) (calls st).
Definition set_contextRegex (v : option loc) (st : State) : State :=
  mkState (heap st) v (moduleRegex st) (lastContext st)
          (lastModule st) (reportedContext st) (world st) (calls st).
Definition set_moduleRegex (v : option loc) (st : State) : State :=
  mkState (heap st) (contextRegex st) v (lastContext st)
          (lastModule st) (reportedContext st) (world st) (calls st).
Definition set_lastContext (v : option string) (st : State) : State :=
  mkState (heap st) (contextRegex st) (moduleRegex st) v
          (lastModule st) (reportedContext st) (world st) (calls st).
Definition set_lastModule (v : option string) (st : State) : State :=
  mkState (heap st) (contextRegex st) (moduleRegex st) (lastContext st)
          v (reportedContext st) (world st) (calls st).
Definition set_reportedContext (v : bool) (st : State) : State :=
  mkState (heap st) (contextRegex st) (moduleRegex st) (lastContext st)
          (lastModule st) v (world st) (calls st).
Definition called (c : Call) (w : W) (st : State) : State :=
  mkState (heap st) (contextRegex st) (moduleRegex st) (lastContext st)
          (lastModule st) (reportedContext st) w (calls st ++ [c]).

(** ** State and exceptions *)

Definition M (A : Type) : Type := State -> Completion A * State.

Definition ret {A : Type} (a : A) : M A := fun st => (Normal a, st).

Definition throw {A : Type} (message : string) : M A :=
  fun st => (Throw message, st).

Definition bind {A B : Type} (m : M A) (k : A -> M B) : M B :=
  fun st =>
    match m st with
    | (Normal a, st') => k a st'
    | (Throw e, st') => (Throw e, st')
    end.

Definition get : M State := fun st => (Normal st, st).

Definition modify (f : State -> State) : M unit :=
  fun st => (Normal tt, f st).

Notation "'do' x <- m ; k" := (bind m (fun x => k))
  (at level 10, x name, m at level 100, k at level 200,
   format "'[v' 'do'  x  <-  m ; '/' k ']'").
Notation "m >> k" := (bind m (fun _ => k))
  (at level 100, k at level 200, right associativity).

(** Calling a variable that holds [undefined] throws a [TypeError]. *)
Definition call_handleContext : M unit :=
  fun st =>
    match handleContext with
    | Some h =>
        (Normal tt,
         called (CallContext (lastContext st) (contextRegex st) (moduleRegex st))
                (h (lastContext st) (contextRegex st) (moduleRegex st) (world st))
                st)
    | None => (Throw "TypeError: handleContext is not a function", st)
    end.

Definition call_handleModule : M unit :=
  fun st =>
    match handleModule with
    | Some h =>
        (Normal tt,
         called (CallModule (lastModule st) (lastContext st)
                            (contextRegex st) (moduleRegex st))
                (h (lastModule st) (lastContext st)
                   (contextRegex st) (moduleRegex st) (world st))
                st)
    | None => (Throw "TypeError: handleModule is not a function", st)
    end.

(** ** [report] *)

Definition report : M unit :=
  (do st <- get;
   if truthy_obj handleContext && truthy_str (lastContext st)
      && truthy_str (lastModule st) && negb (reportedContext st)
   then call_handleContext >> modify (set_reportedContext true)
   else ret tt) >>
  (do st <- get;
   if truthy_obj handleModule && truthy_str (lastContext st)
      && truthy_str (lastModule st)
   then call_handleModule >> modify (set_lastModule None)
   else ret tt).

(** ** The engine's [test], on an object of the heap *)

(** [RegExp.prototype.test.apply(this, [s])]: a [TypeError] when [this]
    is not a regular expression. *)
Definition proto_test (this : option loc) (s : string) : M bool :=
  fun st =>
    match this with
    | Some l =>
        match heap st !! l with
        | Some o =>
            let '(result, i) := native_test (fields o) s in
            (Normal result,
             set_heap (<[l := with_lastIndex o i]> (heap st)) st)
        | None => (Throw "TypeError: not a RegExp", st)
        end
    | None => (Throw "TypeError: not a RegExp", st)
    end.

(** [regexpClone(regExp)]: a new object, whose [test] is the
    prototype's. *)
Definition regexpClone_new (regExp : loc) : M loc :=
  fun st =>
    match heap st !! regExp with
    | Some o =>
        (Normal (length (heap st)),
         set_heap (heap st ++ [mkObj (regexpClone (fields o)) ProtoTest]) st)
    | None => (Throw "TypeError: Not a RegExp", st)
    end.

(** [re.test = function ...]: sets the own property of the object. *)
Definition install (re : loc) (t : TestProp) : M unit :=
  modify (fun st => set_heap (alter (fun o => with_test o t) re (heap st)) st).

(** ** The two interceptors

    In both, [test] is the closure constant read from the clone before
    the interceptor is installed: the prototype's function. *)

Definition context_test (s : string) : M bool :=
  do st <- get;
  do result <- proto_test (contextRegex st) s;
  do st <- get;
  (if result && strict_neq s (lastContext st)
   then modify (set_lastContext (Some s)) >> report
   else ret tt) >>
  ret result.

Definition module_test (s : string) : M bool :=
  do st <- get;
  do result <- proto_test (moduleRegex st) s;
  do st <- get;
  (if result && strict_neq s (lastModule st)
   then modify (set_lastModule (Some s)) >> report
   else ret tt) >>
  ret result.

(** ** The two wrappers the factory returns *)

Definition context (regExp : loc) : M loc :=
  do st <- get;
  if truthy_obj (contextRegex st)
  then throw "`context` can only be called once"
  else
    do clone <- regexpClone_new regExp;
    modify (set_contextRegex (Some clone)) >>
    install clone ContextWrapper >>
    ret clone.

Definition module (regExp : loc) : M loc :=
  do st <- get;
  if truthy_obj (moduleRegex st)
  then throw "`module` can only be called once"
  else
    do clone <- regexpClone_new regExp;
    modify (set_moduleRegex (Some clone)) >>
    install clone ModuleWrapper >>
    ret clone.

(** [re.test(s)], for any reference [re]: the property lookup decides
    which function runs. *)
Definition call_test (re : loc) (s : string) : M bool :=
  fun st =>
    match heap st !! re with
    | Some o =>
        match test_prop o with
        | ProtoTest => proto_test (Some re) s st
        | ContextWrapper => context_test s st
        | ModuleWrapper => module_test s st
        end
    | None => (Throw "TypeError: cannot read property of undefined", st)
    end.

(** ** What a caller can do with one instrumenter *)

Inductive Op : Type :=
  | OpContext (regExp : loc)
  | OpModule (regExp : loc)
  | OpTest (re : loc) (s : string).

Inductive Value : Type :=
  | VRef (l : loc)
  | VBool (b : bool).

Definition step (op : Op) : M Value :=
  match op with
  | OpContext regExp => do l <- context regExp; ret (VRef l)
  | OpModule regExp => do l <- module regExp; ret (VRef l)
  | OpTest re s => do b <- call_test re s; ret (VBool b)
  end.

(** A caller that goes on after an exception (it caught it) sees the
    state as the [throw] left it. *)
Fixpoint run (ops : list Op) (st : State) : list (Completion Value) * State :=
  match ops with
  | [] => ([], st)
  | op :: rest =>
      let '(c, st1) := step op st in
      let '(cs, st2) := run rest st1 in
      (c :: cs, st2)
  end.

(** The factory: nothing wrapped, [lastContext] and [lastModule] null,
    nothing reported. [pats] are the regular expressions that exist when
    the instrumenter is created. *)
Definition instrumentContextModule (pats : list RegExp) (w : W) : State :=
  mkState (fmap (fun d => mkObj d ProtoTest) pats) None None None None false w [].

(** ** Notions the statements below are written with *)

(** The two conditions of [report], read in a state. *)
Definition context_due (st : State) : bool :=
  truthy_obj handleContext && truthy_str (lastContext st)
  && truthy_str (lastModule st) && negb (reportedContext st).

Definition module_due (st : State) : bool :=
  truthy_obj handleModule && truthy_str (lastContext st)
  && truthy_str (lastModule st).

(** The state [report] leaves, in closed form ([report_eq] below). *)
Definition report_context (st : State) : State :=
  match handleContext with
  | Some h =>
      if context_due st
      then set_reportedContext true
             (called (CallContext (lastContext st) (contextRegex st) (moduleRegex st))
                     (h (lastContext st) (contextRegex st) (moduleRegex st) (world st))
                     st)
      else st
  | None => st
  end.

Definition report_module (st : State) : State :=
  match handleModule with
  | Some h =>
      if module_due st
      then set_lastModule None
             (called (CallModule (lastModule st) (lastContext st)
                                 (contextRegex st) (moduleRegex st))
                     (h (lastModule st) (lastContext st)
                        (contextRegex st) (moduleRegex st) (world st))
                     st)
      else st
  | None => st
  end.

Definition report_state (st : State) : State :=
  report_module (report_context st).

(** The state after the engine's [test] on the object [o] at [l]. *)
Definition tested (l : loc) (o : RegExpObj) (s : string) (st : State) : State :=
  set_heap (<[l := with_lastIndex o (snd (native_test (fields o) s))]> (heap st)) st.

(** The state after [regexpClone(o)] got the interceptor [t] as its
    [test]: one more object, at the end of the heap. *)
Definition installed (t : TestProp) (o : RegExpObj) (st : State) : State :=
  set_heap (heap st ++ [mkObj (regexpClone (fields o)) t]) st.

(** The state a matching [test] of the wrapped context (module) pattern
    leaves, when the string is not the last one seen. *)
Definition context_seen (s : string) (st : State) : State :=
  report_state (set_lastContext (Some s) st).

Definition module_seen (s : string) (st : State) : State :=
  report_state (set_lastModule (Some s) st).

(** The interceptors sit on the clones of this instrumenter, and nowhere
    else: an object whose [test] is an interceptor is the one the
    matching closure variable points to. *)
Definition wf (st : State) : Prop :=
  forall l o, heap st !! l = Some o ->
    (test_prop o = ContextWrapper -> contextRegex st = Some l) /\
    (test_prop o = ModuleWrapper -> moduleRegex st = Some l).

(** [op], run in [st], is a test of the wrapped module pattern that
    matched. *)
Definition is_module_match (op : Op) (st : State) : bool :=
  match op with
  | OpTest re s =>
      match heap st !! re with
      | Some (mkObj _ ModuleWrapper) =>
          match call_test re s st with
          | (Normal true, _) => true
          | _ => false
          end
      | _ => false
      end
  | _ => false
  end.

(** Along [ops] from [st], the wrapped module pattern matched nothing. *)
Fixpoint module_never_matched (ops : list Op) (st : State) : bool :=
  match ops with
  | [] => true
  | op :: rest =>
      negb (is_module_match op st)
      && module_never_matched rest (snd (step op st))
  end.

(** The state of a new instrumenter after the calls [ops]. *)
Definition reached (pats : list RegExp) (w : W) (ops : list Op) : State :=
  snd (run ops (instrumentContextModule pats w)).

(** What the engine answers when the strings [ss] are tested one after
    the other on a pattern with the fields [r], not wrapped. *)
Fixpoint native_results (r : RegExp) (ss : list string) : list bool :=
  match ss with
  | [] => []
  | s :: rest =>
      fst (native_test r s)
      :: native_results (mkRegExp (source r) (flags r) (snd (native_test r s))) rest
  end.

(** What [re.test] answers when the strings [ss] are tested one after
    the other on the object [re]. *)
Fixpoint test_results (re : loc) (ss : list string) (st : State)
  : list (Completion bool) :=
  match ss with
  | [] => []
  | s :: rest =>
      fst (call_test re s st) :: test_results re rest (snd (call_test re s st))
  end.

(** A call of a handler as the source means it: truthy strings, and the
    two wrapped patterns, [cr] and [mr], both defined. *)
Definition call_well_formed (cr mr : option loc) (c : Call) : Prop :=
  match c with
  | CallContext ctx a b =>
      truthy_str ctx = true /\ a = cr /\ b = mr
      /\ truthy_obj cr = true /\ truthy_obj mr = true
  | CallModule m ctx a b =>
      truthy_str m = true /\ truthy_str ctx = true /\ a = cr /\ b = mr
      /\ truthy_obj cr = true /\ truthy_obj mr = true
  end.

(** The closure variables fit together: each of [contextRegex] and
    [moduleRegex] points to an object that has its interceptor, a last
    matched string is there only once its pattern is wrapped, and every
    call made so far is well formed. *)
Definition coherent (st : State) : Prop :=
  (forall c, contextRegex st = Some c ->
             exists o, heap st !! c = Some o /\ test_prop o = ContextWrapper) /\
  (forall m, moduleRegex st = Some m ->
             exists o, heap st !! m = Some o /\ test_prop o = ModuleWrapper) /\
  (contextRegex st = None -> lastContext st = None) /\
  (moduleRegex st = None -> lastModule st = None) /\
  Forall (call_well_formed (contextRegex st) (moduleRegex st)) (calls st).

(** The heap grew by the clones of the patterns wrapped so far. *)
Definition clones (st : State) : nat :=
  (if truthy_obj (contextRegex st) then 1 else 0)
  + (if truthy_obj (moduleRegex st) then 1 else 0).

(** The shape of a trace when [handleContext] was passed: empty as long as
    nothing is reported; then one call of [handleContext] at the head,
    followed by calls of [handleModule] only, the first of them (when
    [handleModule] was passed, [hm]) for the same context and patterns. *)
Definition context_first (hm reported : bool) (cs : list Call) : Prop :=
  (cs = [] /\ reported = false) \/
  (reported = true /\
   exists c cr mr rest,
     cs = CallContext c cr mr :: rest /\
     Forall (fun x => is_module_call x = true) rest /\
     (hm = true -> exists m rest', rest = CallModule m c cr mr :: rest')).


End Instrumenter.

Arguments State W : clear implicits.
Arguments M W A : clear implicits.
Arguments ContextHandler W : clear implicits.
Arguments ModuleHandler W : clear implicits.

(** ** A concrete engine and concrete handlers, to run scenarios

    [literal_test] is the engine restricted to patterns without
    metacharacters and without the [g] and [y] flags: the pattern matches
    the strings that contain its source, and [lastIndex] stays. *)
Definition literal_test (r : RegExp) (s : string) : bool * Z :=
  (match String.index 0 (source r) s with
   | Some _ => true
   | None => false
   end,
   lastIndex r).

(** An engine for a sticky pattern ([y] flag): the source must occur at
    [lastIndex], which moves past the match, or falls back to 0. *)
Definition sticky_test (r : RegExp) (s : string) : bool * Z :=
  if String.eqb (String.substring (Z.to_nat (lastIndex r))
                                  (String.length (source r)) s)
                (source r)
  then (true, (lastIndex r + Z.of_nat (String.length (source r)))%Z)
  else (false, 0%Z).

(** [regexp-clone] as [new RegExp(source, flags)] with [lastIndex]
    copied. *)
Definition clone_all (r : RegExp) : RegExp := r.

(** [regexp-clone] as [new RegExp(source, flags)], which starts at 0. *)
Definition clone_rewind (r : RegExp) : RegExp :=
  mkRegExp (source r) (flags r) 0.

(** [r] has the flag [f] ("g", "y", ...). *)
Definition has_flag (f : string) (r : RegExp) : bool :=
  match String.index 0 f (flags r) with
  | Some _ => true
  | None => false
  end.

(** The engine on patterns without metacharacters, reading the flags: a
    sticky pattern ([y]) must match at [lastIndex]; a global one ([g])
    searches from [lastIndex] on and moves it past the match, or back to
    0; any other searches the whole string and leaves [lastIndex]. (The
    patterns it is run on are case-sensitive.) *)
Definition flag_test (r : RegExp) (s : string) : bool * Z :=
  if has_flag "y" r then sticky_test r s
  else if has_flag "g" r then
    match String.index (Z.to_nat (lastIndex r)) (source r) s with
    | Some i => (true, Z.of_nat (i + String.length (source r)))
    | None => (false, 0%Z)
    end
  else literal_test r s.

(** [regexp-clone] as published when the module was written (0.0.1):
    [new RegExp(regexp.source, flags)], where [flags] gets "g", "m" and
    "i" from [regexp.global], [regexp.multiline] and [regexp.ignoreCase];
    no other flag is looked at, and the new object starts at
    [lastIndex] 0. *)
Definition keep_flag (f : string) (r : RegExp) : string :=
  if has_flag f r then f else "".

Definition regexp_clone_gmi (r : RegExp) : RegExp :=
  mkRegExp (source r)
           (String.append (keep_flag "g" r)
                          (String.append (keep_flag "m" r) (keep_flag "i" r)))
           0.

(** The handlers of the end-to-end scenario:
    [c => log.push(['ctx', c])] and [m => log.push(['mod', m])]. *)
Definition Log : Type := list (string * option string).

Definition log_ctx : ContextHandler Log :=
  fun c _ _ log => log ++ [("ctx", c)].

Definition log_mod : ModuleHandler Log :=
  fun m _ _ _ log => log ++ [("mod", m)].

(** Two patterns, [/\//] and [/\./], both wrapped: the context pattern
    is then object 2 and the module pattern object 3. *)
Definition two_patterns : list RegExp :=
  [mkRegExp "/" "" 0; mkRegExp "." "" 0].

Definition wrap_both : list Op := [OpContext 0; OpModule 1].

(** Two patterns with an empty source, which match every string, the
    empty one included. *)
Definition any_patterns : list RegExp :=
  [mkRegExp "" "" 0; mkRegExp "" "" 0].

(** The end-to-end scenario: the context pattern tested on "/icons", the
    module pattern on "a.svg" and "b.svg", the context pattern on "/icons"
    again. *)
Definition icons_scenario : list Op :=
  wrap_both
  ++ [OpTest 2 "/icons"; OpTest 3 "a.svg"; OpTest 3 "b.svg"; OpTest 2 "/icons"].

(** Three context matches, "/a", "/a", "/b", each followed by a module
    match. *)
Definition contexts_scenario : list Op :=
  wrap_both
  ++ [OpTest 2 "/a"; OpTest 3 "m.js";
      OpTest 2 "/a"; OpTest 3 "m.js";
      OpTest 2 "/b"; OpTest 3 "m.js"].

(** The state of an instrumenter with both handlers, on the concrete
    engine, after [ops]. *)
Definition logged (ops : list Op) : State Log :=
  reached literal_test clone_all (Some log_ctx) (Some log_mod) two_patterns [] ops.

(** The number of calls of each handler in a trace. *)
Definition context_calls (cs : list Call) : nat :=
  length (filter (fun c => is_context_call c = true) cs).

Definition module_calls (cs : list Call) : nat :=
  length (filter (fun c => is_module_call c = true) cs).

(** The strings a trace passed to [handleModule], in order. *)
Definition modules_reported (cs : list Call) : list (option string) :=
  omap (fun c => match c with
                 | CallModule m _ _ _ => Some m
                 | CallContext _ _ _ => None
                 end) cs.

(** The strings a trace passed to [handleContext], in order. *)
Definition contexts_reported (cs : list Call) : list (option string) :=
  omap (fun c => match c with
                 | CallContext c _ _ => Some c
                 | CallModule _ _ _ _ => None
                 end) cs.

(** * Properties *)

Section Properties.

Context {W : Type}.
Variable native_test : RegExp -> string -> bool * Z.
Variable regexpClone : RegExp -> RegExp.
Variable handleContext : option (ContextHandler W).
Variable handleModule : option (ModuleHandler W).

Local Abbreviation report1 := (report handleContext handleModule).
Local Abbreviation report_state1 := (report_state handleContext handleModule).
Local Abbreviation context_test1 := (context_test native_test handleContext handleModule).
Local Abbreviation module_test1 := (module_test native_test handleContext handleModule).
Local Abbreviation call_test1 := (call_test native_test handleContext handleModule).
Local Abbreviation context1 := (context regexpClone).
Local Abbreviation module1 := (module regexpClone).
Local Abbreviation step1 := (step native_test regexpClone handleContext handleModule).
Local Abbreviation run1 := (run native_test regexpClone handleContext handleModule).
Local Abbreviation reached1 :=
  (reached native_test regexpClone handleContext handleModule).

(** ** [report] *)

(** [report] never throws, and leaves [report_state]. *)
Lemma report_eq (st : State W) : report1 st = (Normal tt, report_state1 st).
Proof.
  unfold report, report_state, report_context, report_module, bind, get.
  unfold context_due, module_due, call_handleContext, call_handleModule.
  destruct handleContext as [hc|], handleModule as [hm|]; simpl;
    repeat match goal with
           | |- context [if ?b then _ else _] => destruct b; simpl
           end; reflexivity.
Qed.

Lemma report_state_frame (st : State W) :
  heap (report_state1 st) = heap st /\
  contextRegex (report_state1 st) = contextRegex st /\
  moduleRegex (report_state1 st) = moduleRegex st /\
  lastContext (report_state1 st) = lastContext st.
Proof.
  unfold report_state, report_context, report_module.
  destruct handleContext, handleModule;
    repeat match goal with
           | |- context [if ?b then _ else _] => destruct b
           end; simpl; auto.
Qed.

(** Without a truthy [lastContext] and a truthy [lastModule], [report]
    does nothing. *)
Lemma report_state_idle (st : State W) :
  truthy_str (lastContext st) && truthy_str (lastModule st) = false ->
  report_state1 st = st.
Proof.
  intros H. unfold report_state, report_context, report_module.
  unfold context_due, module_due.
  destruct handleContext, handleModule; simpl;
    destruct (truthy_str (lastContext st)) eqn:E1,
             (truthy_str (lastModule st)) eqn:E2;
    simpl in *; try discriminate; rewrite ?E1, ?E2; reflexivity.
Qed.

(** ** [test], in closed form *)

Lemma proto_test_eq (l : loc) (o : RegExpObj) (s : string) (st : State W) :
  heap st !! l = Some o ->
  proto_test native_test (Some l) s st
  = (Normal (fst (native_test (fields o) s)), tested native_test l o s st).
Proof.
  intros H. unfold proto_test, tested. rewrite H.
  destruct (native_test (fields o) s); reflexivity.
Qed.

Lemma context_test_eq (l : loc) (o : RegExpObj) (s : string) (st : State W) :
  contextRegex st = Some l -> heap st !! l = Some o ->
  context_test1 s st
  = (Normal (fst (native_test (fields o) s)),
     if fst (native_test (fields o) s) && strict_neq s (lastContext st)
     then report_state1 (set_lastContext (Some s) (tested native_test l o s st))
     else tested native_test l o s st).
Proof.
  intros Hc Ho. unfold context_test, bind, get. rewrite Hc.
  rewrite (proto_test_eq _ _ _ _ Ho). simpl.
  destruct (fst (native_test (fields o) s) && strict_neq s (lastContext st)); simpl.
  - unfold modify. rewrite report_eq. reflexivity.
  - reflexivity.
Qed.

Lemma module_test_eq (l : loc) (o : RegExpObj) (s : string) (st : State W) :
  moduleRegex st = Some l -> heap st !! l = Some o ->
  module_test1 s st
  = (Normal (fst (native_test (fields o) s)),
     if fst (native_test (fields o) s) && strict_neq s (lastModule st)
     then report_state1 (set_lastModule (Some s) (tested native_test l o s st))
     else tested native_test l o s st).
Proof.
  intros Hc Ho. unfold module_test, bind, get. rewrite Hc.
  rewrite (proto_test_eq _ _ _ _ Ho). simpl.
  destruct (fst (native_test (fields o) s) && strict_neq s (lastModule st)); simpl.
  - unfold modify. rewrite report_eq. reflexivity.
  - reflexivity.
Qed.

Lemma call_test_eq (l : loc) (o : RegExpObj) (s : string) (st : State W) :
  wf st -> heap st !! l = Some o ->
  call_test1 l s st
  = (Normal (fst (native_test (fields o) s)),
     match test_prop o with
     | ProtoTest => tested native_test l o s st
     | ContextWrapper =>
         if fst (native_test (fields o) s) && strict_neq s (lastContext st)
         then context_seen handleContext handleModule s (tested native_test l o s st)
         else tested native_test l o s st
     | ModuleWrapper =>
         if fst (native_test (fields o) s) && strict_neq s (lastModule st)
         then module_seen handleContext handleModule s (tested native_test l o s st)
         else tested native_test l o s st
     end).
Proof.
  intros Hwf Ho. unfold call_test. rewrite Ho.
  destruct (Hwf l o Ho) as [Hc Hm].
  destruct (test_prop o).
  - apply proto_test_eq, Ho.
  - apply context_test_eq; auto.
  - apply module_test_eq; auto.
Qed.

(** ** [context] and [module], in closed form *)

Lemma alter_last (f : RegExpObj -> RegExpObj) (h : list RegExpObj) (x : RegExpObj) :
  alter f (length h) (h ++ [x]) = h ++ [f x].
Proof.
  replace (length h) with (length h + 0) by lia.
  rewrite alter_app_r. reflexivity.
Qed.

Lemma context_throws (regExp c : loc) (st : State W) :
  contextRegex st = Some c ->
  context1 regExp st = (Throw "`context` can only be called once", st).
Proof. intros H. unfold context, bind, get. rewrite H. reflexivity. Qed.

Lemma module_throws (regExp m : loc) (st : State W) :
  moduleRegex st = Some m ->
  module1 regExp st = (Throw "`module` can only be called once", st).
Proof. intros H. unfold module, bind, get. rewrite H. reflexivity. Qed.

Lemma context_eq (regExp : loc) (o : RegExpObj) (st : State W) :
  contextRegex st = None -> heap st !! regExp = Some o ->
  context1 regExp st
  = (Normal (length (heap st)),
     set_contextRegex (Some (length (heap st)))
                      (installed regexpClone ContextWrapper o st)).
Proof.
  intros Hc Ho. unfold context, bind, get, regexpClone_new, install, modify, ret.
  rewrite Hc. simpl. rewrite Ho. simpl.
  unfold installed, set_contextRegex, set_heap. simpl.
  rewrite alter_last. reflexivity.
Qed.

Lemma module_eq (regExp : loc) (o : RegExpObj) (st : State W) :
  moduleRegex st = None -> heap st !! regExp = Some o ->
  module1 regExp st
  = (Normal (length (heap st)),
     set_moduleRegex (Some (length (heap st)))
                     (installed regexpClone ModuleWrapper o st)).
Proof.
  intros Hc Ho. unfold module, bind, get, regexpClone_new, install, modify, ret.
  rewrite Hc. simpl. rewrite Ho. simpl.
  unfold installed, set_moduleRegex, set_heap. simpl.
  rewrite alter_last. reflexivity.
Qed.

Lemma context_not_regexp (regExp : loc) (st : State W) :
  contextRegex st = None -> heap st !! regExp = None ->
  context1 regExp st = (Throw "TypeError: Not a RegExp", st).
Proof.
  intros Hc Ho. unfold context, bind, get, regexpClone_new.
  rewrite Hc. simpl. rewrite Ho. reflexivity.
Qed.

Lemma module_not_regexp (regExp : loc) (st : State W) :
  moduleRegex st = None -> heap st !! regExp = None ->
  module1 regExp st = (Throw "TypeError: Not a RegExp", st).
Proof.
  intros Hc Ho. unfold module, bind, get, regexpClone_new.
  rewrite Hc. simpl. rewrite Ho. reflexivity.
Qed.

(** ** The invariant *)

Lemma wf_fresh (pats : list RegExp) (w : W) :
  wf (instrumentContextModule pats w).
Proof.
  intros l o H. unfold instrumentContextModule in H. simpl in H.
  rewrite list_lookup_fmap in H.
  destruct (pats !! l); simpl in H; [|discriminate H].
  injection H as <-. simpl. split; intros H; discriminate H.
Qed.

(** [wf] reads the heap and the two closure variables only. *)
Lemma wf_same (st st' : State W) :
  heap st' = heap st -> contextRegex st' = contextRegex st ->
  moduleRegex st' = moduleRegex st -> wf st -> wf st'.
Proof.
  intros Hh Hc Hm Hwf l o Ho. rewrite Hh in Ho. rewrite Hc, Hm.
  apply Hwf, Ho.
Qed.

Lemma wf_report_state (st : State W) : wf st -> wf (report_state1 st).
Proof.
  destruct (report_state_frame st) as (Hh & Hc & Hm & _).
  apply wf_same; assumption.
Qed.

Lemma wf_tested (l : loc) (o : RegExpObj) (s : string) (st : State W) :
  heap st !! l = Some o -> wf st -> wf (tested native_test l o s st).
Proof.
  intros Ho Hwf l' o' Ho'. unfold tested in Ho'. simpl in *.
  destruct (decide (l = l')) as [<-|Hne].
  - rewrite list_lookup_insert_eq in Ho' by (eapply lookup_lt_Some, Ho).
    injection Ho' as <-. simpl. apply Hwf, Ho.
  - rewrite list_lookup_insert_ne in Ho' by assumption. apply Hwf, Ho'.
Qed.

Lemma wf_call_test (l : loc) (s : string) (st : State W) :
  wf st -> wf (snd (call_test1 l s st)).
Proof.
  intros Hwf. destruct (heap st !! l) as [o|] eqn:Ho.
  - rewrite (call_test_eq l o s st Hwf Ho). simpl.
    pose proof (wf_tested l o s st Ho Hwf) as Ht.
    destruct (test_prop o); [assumption| |].
    + destruct (_ && _); [|assumption].
      apply wf_report_state. revert Ht. apply wf_same; reflexivity.
    + destruct (_ && _); [|assumption].
      apply wf_report_state. revert Ht. apply wf_same; reflexivity.
  - unfold call_test. rewrite Ho. exact Hwf.
Qed.

Lemma wf_context (regExp : loc) (st : State W) :
  wf st -> wf (snd (context1 regExp st)).
Proof.
  intros Hwf. destruct (contextRegex st) as [c|] eqn:Hc.
  - rewrite (context_throws regExp c st Hc). exact Hwf.
  - destruct (heap st !! regExp) as [o|] eqn:Ho.
    + rewrite (context_eq regExp o st Hc Ho). simpl.
      intros l o' Ho'. simpl in *.
      destruct (decide (l < length (heap st))) as [Hlt|Hge].
      * rewrite lookup_app_l in Ho' by assumption.
        destruct (Hwf l o' Ho') as [H1 H2]. split; [|exact H2].
        intros Ht. rewrite (H1 Ht) in Hc. discriminate.
      * rewrite lookup_app_r in Ho' by lia.
        destruct (l - length (heap st)) as [|k] eqn:Hk; simpl in Ho'.
        -- injection Ho' as <-. simpl. split; [|discriminate].
           intros _. f_equal. lia.
        -- destruct k; discriminate.
    + rewrite (context_not_regexp regExp st Hc Ho). exact Hwf.
Qed.

Lemma wf_module (regExp : loc) (st : State W) :
  wf st -> wf (snd (module1 regExp st)).
Proof.
  intros Hwf. destruct (moduleRegex st) as [c|] eqn:Hc.
  - rewrite (module_throws regExp c st Hc). exact Hwf.
  - destruct (heap st !! regExp) as [o|] eqn:Ho.
    + rewrite (module_eq regExp o st Hc Ho). simpl.
      intros l o' Ho'. simpl in *.
      destruct (decide (l < length (heap st))) as [Hlt|Hge].
      * rewrite lookup_app_l in Ho' by assumption.
        destruct (Hwf l o' Ho') as [H1 H2]. split; [exact H1|].
        intros Ht. rewrite (H2 Ht) in Hc. discriminate.
      * rewrite lookup_app_r in Ho' by lia.
        destruct (l - length (heap st)) as [|k] eqn:Hk; simpl in Ho'.
        -- injection Ho' as <-. simpl. split; [discriminate|].
           intros _. f_equal. lia.
        -- destruct k; discriminate.
    + rewrite (module_not_regexp regExp st Hc Ho). exact Hwf.
Qed.

(** [step], through the completion of the call it makes. *)
Lemma step_state (op : Op) (st : State W) :
  snd (step1 op st)
  = match op with
    | OpContext regExp => snd (context1 regExp st)
    | OpModule regExp => snd (module1 regExp st)
    | OpTest re s => snd (call_test1 re s st)
    end.
Proof.
  destruct op; unfold step, bind, ret.
  - destruct (context1 regExp st) as [[?|?] ?]; reflexivity.
  - destruct (module1 regExp st) as [[?|?] ?]; reflexivity.
  - destruct (call_test1 re s st) as [[?|?] ?]; reflexivity.
Qed.

Lemma wf_step (op : Op) (st : State W) : wf st -> wf (snd (step1 op st)).
Proof.
  intros Hwf. rewrite step_state. destruct op.
  - apply wf_context, Hwf.
  - apply wf_module, Hwf.
  - apply wf_call_test, Hwf.
Qed.

Lemma run_cons (op : Op) (ops : list Op) (st : State W) :
  run1 (op :: ops) st
  = (fst (step1 op st) :: fst (run1 ops (snd (step1 op st))),
     snd (run1 ops (snd (step1 op st)))).
Proof.
  simpl. destruct (step1 op st) as [c st1]. simpl.
  destruct (run1 ops st1); reflexivity.
Qed.

Lemma run_app (ops ops' : list Op) (st : State W) :
  snd (run1 (ops ++ ops') st) = snd (run1 ops' (snd (run1 ops st))).
Proof.
  revert st. induction ops as [|op ops IH]; intros st; [reflexivity|].
  rewrite <- app_comm_cons, !run_cons. simpl. apply IH.
Qed.

Lemma wf_run (ops : list Op) (st : State W) : wf st -> wf (snd (run1 ops st)).
Proof.
  revert st. induction ops as [|op ops IH]; intros st Hwf; [exact Hwf|].
  rewrite run_cons. simpl. apply IH, wf_step, Hwf.
Qed.

(** What one call can do to the state: nothing (it threw at once), wrap a
    pattern, run the engine on an object, and then, from an interceptor
    whose pattern matched a string that is not the last one seen, note
    the string and report. *)
Lemma step_cases (P : Op -> State W -> State W -> Prop) :
  (forall op st, P op st st) ->
  (forall st regExp o,
      contextRegex st = None -> heap st !! regExp = Some o ->
      P (OpContext regExp) st
        (set_contextRegex (Some (length (heap st)))
                          (installed regexpClone ContextWrapper o st))) ->
  (forall st regExp o,
      moduleRegex st = None -> heap st !! regExp = Some o ->
      P (OpModule regExp) st
        (set_moduleRegex (Some (length (heap st)))
                         (installed regexpClone ModuleWrapper o st))) ->
  (forall st l o s,
      heap st !! l = Some o -> P (OpTest l s) st (tested native_test l o s st)) ->
  (forall st l o s,
      heap st !! l = Some o -> contextRegex st = Some l ->
      test_prop o = ContextWrapper ->
      fst (native_test (fields o) s) = true ->
      strict_neq s (lastContext st) = true ->
      P (OpTest l s) st
        (context_seen handleContext handleModule s (tested native_test l o s st))) ->
  (forall st l o s,
      heap st !! l = Some o -> moduleRegex st = Some l ->
      test_prop o = ModuleWrapper ->
      fst (native_test (fields o) s) = true ->
      strict_neq s (lastModule st) = true ->
      P (OpTest l s) st
        (module_seen handleContext handleModule s (tested native_test l o s st))) ->
  forall op st, wf st -> P op st (snd (step1 op st)).
Proof.
  intros Hrefl Hctx Hmod Htest Hcseen Hmseen op st Hwf.
  rewrite step_state. destruct op as [regExp|regExp|l s].
  - destruct (contextRegex st) as [c|] eqn:Hc.
    + rewrite (context_throws regExp c st Hc). apply Hrefl.
    + destruct (heap st !! regExp) as [o|] eqn:Ho.
      * rewrite (context_eq regExp o st Hc Ho). eapply Hctx; eassumption.
      * rewrite (context_not_regexp regExp st Hc Ho). apply Hrefl.
  - destruct (moduleRegex st) as [c|] eqn:Hc.
    + rewrite (module_throws regExp c st Hc). apply Hrefl.
    + destruct (heap st !! regExp) as [o|] eqn:Ho.
      * rewrite (module_eq regExp o st Hc Ho). eapply Hmod; eassumption.
      * rewrite (module_not_regexp regExp st Hc Ho). apply Hrefl.
  - destruct (heap st !! l) as [o|] eqn:Ho.
    + rewrite (call_test_eq l o s st Hwf Ho). simpl.
      destruct (Hwf l o Ho) as [H1 H2].
      destruct (test_prop o) eqn:Ht.
      * apply Htest, Ho.
      * destruct (fst (native_test (fields o) s)) eqn:Hr; simpl;
          [|apply Htest, Ho].
        destruct (strict_neq s (lastContext st)) eqn:Hn; [|apply Htest, Ho].
        apply Hcseen; auto.
      * destruct (fst (native_test (fields o) s)) eqn:Hr; simpl;
          [|apply Htest, Ho].
        destruct (strict_neq s (lastModule st)) eqn:Hn; [|apply Htest, Ho].
        apply Hmseen; auto.
    + unfold call_test. rewrite Ho. apply Hrefl.
Qed.

(** A property of the state that every call keeps holds along a run. *)
Lemma run_invariant (I : State W -> Prop) :
  (forall op st, wf st -> I st -> I (snd (step1 op st))) ->
  forall ops st, wf st -> I st -> I (snd (run1 ops st)).
Proof.
  intros Hstep ops. induction ops as [|op ops IH]; intros st Hwf HI; [exact HI|].
  rewrite run_cons. simpl. apply IH; [apply wf_step, Hwf|apply Hstep; assumption].
Qed.

Lemma wf_reached (pats : list RegExp) (w : W) (ops : list Op) :
  wf (reached native_test regexpClone handleContext handleModule pats w ops).
Proof. apply wf_run, wf_fresh. Qed.

(** ** Wrapping once *)

Lemma contextRegex_stays (c : loc) (ops : list Op) (st : State W) :
  wf st -> contextRegex st = Some c -> contextRegex (snd (run1 ops st)) = Some c.
Proof.
  apply (run_invariant (fun st => contextRegex st = Some c)).
  clear st. intros op st Hwf.
  apply (step_cases (fun _ st st' => contextRegex st = Some c -> contextRegex st' = Some c));
    try (intros; simpl; auto; fail); [| |]; clear; intros.
  - congruence.
  - unfold context_seen.
    destruct (report_state_frame (set_lastContext (Some s) (tested native_test l o s st)))
      as (_ & -> & _). simpl. assumption.
  - unfold module_seen.
    destruct (report_state_frame (set_lastModule (Some s) (tested native_test l o s st)))
      as (_ & -> & _). simpl. assumption.
Qed.

Lemma moduleRegex_stays (m : loc) (ops : list Op) (st : State W) :
  wf st -> moduleRegex st = Some m -> moduleRegex (snd (run1 ops st)) = Some m.
Proof.
  apply (run_invariant (fun st => moduleRegex st = Some m)).
  clear st. intros op st Hwf.
  apply (step_cases (fun _ st st' => moduleRegex st = Some m -> moduleRegex st' = Some m));
    try (intros; simpl; auto; fail); [| |]; clear; intros.
  - congruence.
  - unfold context_seen.
    destruct (report_state_frame (set_lastContext (Some s) (tested native_test l o s st)))
      as (_ & _ & -> & _). simpl. assumption.
  - unfold module_seen.
    destruct (report_state_frame (set_lastModule (Some s) (tested native_test l o s st)))
      as (_ & _ & -> & _). simpl. assumption.
Qed.

(** C3. On an instrumenter whose [context] (resp. [module]) has not been
    called yet, the call with a regular expression succeeds and returns
    the clone; from then on, whatever else is called in between, every
    further call of [context] (resp. [module]) throws the "can only be
    called once" error. *)
Theorem wrap_only_once
    (pats : list RegExp) (w : W) (ops : list Op) (regExp : loc) (o : RegExpObj) :
  heap (reached1 pats w ops) !! regExp = Some o ->
  (contextRegex (reached1 pats w ops) = None ->
   exists st1,
     context1 regExp (reached1 pats w ops)
     = (Normal (length (heap (reached1 pats w ops))), st1) /\
     forall ops' regExp',
       fst (context1 regExp' (snd (run1 ops' st1)))
       = Throw "`context` can only be called once") /\
  (moduleRegex (reached1 pats w ops) = None ->
   exists st1,
     module1 regExp (reached1 pats w ops)
     = (Normal (length (heap (reached1 pats w ops))), st1) /\
     forall ops' regExp',
       fst (module1 regExp' (snd (run1 ops' st1)))
       = Throw "`module` can only be called once").
Proof.
  intros Ho. pose proof (wf_reached pats w ops) as Hwf.
  set (st := reached1 pats w ops) in *. split; intros Hnone.
  - eexists. split; [apply (context_eq regExp o st Hnone Ho)|].
    intros ops' regExp'.
    erewrite context_throws; [reflexivity|].
    apply contextRegex_stays; [|reflexivity].
    pose proof (wf_context regExp st Hwf) as H.
    rewrite (context_eq regExp o st Hnone Ho) in H. exact H.
  - eexists. split; [apply (module_eq regExp o st Hnone Ho)|].
    intros ops' regExp'.
    erewrite module_throws; [reflexivity|].
    apply moduleRegex_stays; [|reflexivity].
    pose proof (wf_module regExp st Hwf) as H.
    rewrite (module_eq regExp o st Hnone Ho) in H. exact H.
Qed.

(** C10. When a call of [context] or [module] throws the "can only be
    called once" error, the state is the state before the call: the heap
    with the wrapped patterns, both closure variables, [lastContext],
    [lastModule], [reportedContext], and what the handlers did. *)
Theorem double_wrap_changes_nothing (st : State W) (regExp : loc) :
  (fst (context1 regExp st) = Throw "`context` can only be called once" ->
   snd (context1 regExp st) = st) /\
  (fst (module1 regExp st) = Throw "`module` can only be called once" ->
   snd (module1 regExp st) = st).
Proof.
  split; intros H.
  - destruct (contextRegex st) as [c|] eqn:Hc.
    + rewrite (context_throws regExp c st Hc). reflexivity.
    + destruct (heap st !! regExp) as [o|] eqn:Ho.
      * rewrite (context_eq regExp o st Hc Ho) in H. discriminate H.
      * rewrite (context_not_regexp regExp st Hc Ho). reflexivity.
  - destruct (moduleRegex st) as [c|] eqn:Hc.
    + rewrite (module_throws regExp c st Hc). reflexivity.
    + destruct (heap st !! regExp) as [o|] eqn:Ho.
      * rewrite (module_eq regExp o st Hc Ho) in H. discriminate H.
      * rewrite (module_not_regexp regExp st Hc Ho). reflexivity.
Qed.

(** ** Transparency *)

Lemma seen_heap (s : string) (st : State W) :
  heap (context_seen handleContext handleModule s st) = heap st /\
  heap (module_seen handleContext handleModule s st) = heap st.
Proof.
  unfold context_seen, module_seen. split.
  - destruct (report_state_frame (set_lastContext (Some s) st)) as (-> & _).
    reflexivity.
  - destruct (report_state_frame (set_lastModule (Some s) st)) as (-> & _).
    reflexivity.
Qed.

(** After a [test] of [l], the object at [l] has the [lastIndex] the
    engine gave it, and is otherwise as before. *)
Lemma call_test_object (l : loc) (o : RegExpObj) (s : string) (st : State W) :
  wf st -> heap st !! l = Some o ->
  heap (snd (call_test1 l s st)) !! l
  = Some (with_lastIndex o (snd (native_test (fields o) s))).
Proof.
  intros Hwf Ho. rewrite (call_test_eq l o s st Hwf Ho). simpl.
  assert (Ht : heap (tested native_test l o s st) !! l
               = Some (with_lastIndex o (snd (native_test (fields o) s)))).
  { simpl. apply list_lookup_insert_eq. eapply lookup_lt_Some, Ho. }
  destruct (test_prop o); [exact Ht| |]; destruct (_ && _); try exact Ht.
  - rewrite (proj1 (seen_heap s _)). exact Ht.
  - rewrite (proj2 (seen_heap s _)). exact Ht.
Qed.




(** ** The caller's object *)




(** ** What [report] calls *)

Lemma report_state_effect (st : State W) :
  calls (report_state1 st)
  = calls st
    ++ (if context_due handleContext st
        then [CallContext (lastContext st) (contextRegex st) (moduleRegex st)]
        else [])
    ++ (if module_due handleModule st
        then [CallModule (lastModule st) (lastContext st)
                         (contextRegex st) (moduleRegex st)]
        else []) /\
  reportedContext (report_state1 st)
  = reportedContext st || context_due handleContext st /\
  lastModule (report_state1 st)
  = (if module_due handleModule st then None else lastModule st).
Proof.
  unfold report_state, report_context, report_module, context_due, module_due.
  destruct handleContext as [hc|], handleModule as [hm|]; simpl;
    destruct (truthy_str (lastContext st)) eqn:E1,
             (truthy_str (lastModule st)) eqn:E2,
             (reportedContext st) eqn:E3;
    simpl; rewrite ?E1, ?E2, ?E3; simpl;
    rewrite ?app_nil_r, <- ?app_assoc; auto.
Qed.

(** ** Nothing is reported before both sides have matched *)

Lemma step_quiet (op : Op) (st : State W) :
  wf st -> lastModule st = None ->
  is_module_match native_test handleContext handleModule op st = false ->
  calls (snd (step1 op st)) = calls st /\
  world (snd (step1 op st)) = world st /\
  lastModule (snd (step1 op st)) = None.
Proof.
  intros Hwf. generalize Hwf. revert op st Hwf.
  apply (step_cases (fun op st st' =>
           wf st -> lastModule st = None ->
           is_module_match native_test handleContext handleModule op st = false ->
           calls st' = calls st /\ world st' = world st /\ lastModule st' = None));
    try (intros; simpl; auto; fail).
  - intros st l o s Ho Hc Ht Hr Hn Hwf Hm _. unfold context_seen.
    rewrite report_state_idle; [simpl; auto|].
    simpl. rewrite Hm. apply andb_false_r.
  - intros st l o s Ho Hc Ht Hr Hn Hwf Hm Hnm. exfalso.
    unfold is_module_match in Hnm. rewrite Ho in Hnm.
    destruct o as [d t]. simpl in *. subst t.
    rewrite (call_test_eq l _ s st Hwf Ho) in Hnm. simpl in Hnm.
    rewrite Hr in Hnm. discriminate Hnm.
Qed.

Lemma run_quiet (ops : list Op) (st : State W) :
  wf st -> lastModule st = None ->
  module_never_matched native_test regexpClone handleContext handleModule ops st = true ->
  calls (snd (run1 ops st)) = calls st /\ world (snd (run1 ops st)) = world st.
Proof.
  revert st. induction ops as [|op ops IH]; intros st Hwf Hm Hnm; [auto|].
  simpl in Hnm. apply andb_true_iff in Hnm as [H1 H2].
  apply negb_true_iff in H1.
  destruct (step_quiet op st Hwf Hm H1) as (Hc & Hw & Hm').
  rewrite run_cons. simpl.
  destruct (IH _ (wf_step op st Hwf) Hm' H2) as [Hc' Hw'].
  rewrite Hc', Hw'. auto.
Qed.

(** C4. Along any calls on a new instrumenter in which no [test] of the
    wrapped module pattern has matched (whatever the context pattern
    matched), neither handler has been called: the trace of calls is
    empty and the handlers' world is as it was. *)
Theorem no_report_before_module_match
    (pats : list RegExp) (w : W) (ops : list Op) :
  module_never_matched native_test regexpClone handleContext handleModule
                       ops (instrumentContextModule pats w) = true ->
  calls (reached1 pats w ops) = [] /\ world (reached1 pats w ops) = w.
Proof.
  intros H. apply (run_quiet ops (instrumentContextModule pats w)).
  - apply wf_fresh.
  - reflexivity.
  - exact H.
Qed.

(** ** The empty string *)

Lemma strict_neq_false (s : string) (v : option string) :
  strict_neq s v = false -> v = Some s.
Proof.
  destruct v as [t|]; simpl; [|discriminate].
  intros H. apply negb_false_iff, String.eqb_eq in H. congruence.
Qed.

(** [report] does nothing in a state it leaves with an empty
    [lastModule]. *)
Lemma report_state_empty_module (st : State W) :
  lastModule (report_state1 st) = Some "" -> report_state1 st = st.
Proof.
  intros H. apply report_state_idle.
  destruct (report_state_effect st) as (_ & _ & Hm). rewrite Hm in H.
  destruct (module_due handleModule st); [discriminate H|].
  rewrite H. simpl. apply andb_false_r.
Qed.

Lemma step_empty_string (op : Op) (st : State W) :
  wf st ->
  (lastContext (snd (step1 op st)) = Some ""
   \/ lastModule (snd (step1 op st)) = Some "") ->
  calls (snd (step1 op st)) = calls st /\ world (snd (step1 op st)) = world st.
Proof.
  revert op st.
  apply (step_cases (fun op st st' =>
           (lastContext st' = Some "" \/ lastModule st' = Some "") ->
           calls st' = calls st /\ world st' = world st));
    try (intros; simpl; auto; fail).
  - intros st l o s _ _ _ _ _. unfold context_seen.
    set (x := set_lastContext (Some s) (tested native_test l o s st)).
    intros [H|H].
    + destruct (report_state_frame x) as (_ & _ & _ & Hc).
      rewrite Hc in H. rewrite report_state_idle; [auto|].
      rewrite H. reflexivity.
    + rewrite (report_state_empty_module x H). auto.
  - intros st l o s _ _ _ _ _. unfold module_seen.
    set (x := set_lastModule (Some s) (tested native_test l o s st)).
    intros [H|H].
    + destruct (report_state_frame x) as (_ & _ & _ & Hc).
      rewrite Hc in H. rewrite report_state_idle; [auto|].
      rewrite H. reflexivity.
    + rewrite (report_state_empty_module x H). auto.
Qed.

(** C9. In every state an instrumenter can be in: when the engine
    matches the empty string on the wrapped context (resp. module)
    pattern, the [test] leaves [lastContext] (resp. [lastModule]) equal to
    the empty string; and a call that leaves [lastContext] or [lastModule]
    equal to the empty string has called no handler. *)
Theorem empty_string_is_no_match
    (pats : list RegExp) (w : W) (ops : list Op) :
  (forall l o,
      heap (reached1 pats w ops) !! l = Some o ->
      fst (native_test (fields o) "") = true ->
      (test_prop o = ContextWrapper ->
       fst (call_test1 l "" (reached1 pats w ops)) = Normal true /\
       lastContext (snd (call_test1 l "" (reached1 pats w ops))) = Some "") /\
      (test_prop o = ModuleWrapper ->
       fst (call_test1 l "" (reached1 pats w ops)) = Normal true /\
       lastModule (snd (call_test1 l "" (reached1 pats w ops))) = Some "")) /\
  (forall op,
      lastContext (snd (step1 op (reached1 pats w ops))) = Some ""
      \/ lastModule (snd (step1 op (reached1 pats w ops))) = Some "" ->
      calls (snd (step1 op (reached1 pats w ops))) = calls (reached1 pats w ops) /\
      world (snd (step1 op (reached1 pats w ops))) = world (reached1 pats w ops)).
Proof.
  pose proof (wf_reached pats w ops) as Hwf.
  set (st := reached1 pats w ops) in *. split.
  - intros l o Ho Hr.
    rewrite (call_test_eq l o "" st Hwf Ho). simpl. rewrite Hr. simpl.
    split; intros Ht; rewrite Ht; (split; [reflexivity|]).
    + destruct (strict_neq "" (lastContext st)) eqn:Hn.
      * unfold context_seen.
        destruct (report_state_frame
                    (set_lastContext (Some "") (tested native_test l o "" st)))
          as (_ & _ & _ & ->). reflexivity.
      * simpl. symmetry. apply strict_neq_false in Hn. congruence.
    + destruct (strict_neq "" (lastModule st)) eqn:Hn.
      * unfold module_seen.
        set (x := set_lastModule (Some "") (tested native_test l o "" st)).
        rewrite report_state_idle; [reflexivity|]. simpl. apply andb_false_r.
      * simpl. apply strict_neq_false in Hn. congruence.
  - intros op H. apply step_empty_string; assumption.
Qed.

(** ** Counting the calls *)

Lemma context_calls_app (cs cs' : list Call) :
  context_calls (cs ++ cs') = context_calls cs + context_calls cs'.
Proof. unfold context_calls. rewrite filter_app, length_app. reflexivity. Qed.

Lemma module_calls_app (cs cs' : list Call) :
  module_calls (cs ++ cs') = module_calls cs + module_calls cs'.
Proof. unfold module_calls. rewrite filter_app, length_app. reflexivity. Qed.

Lemma modules_reported_app (cs cs' : list Call) :
  modules_reported (cs ++ cs') = modules_reported cs ++ modules_reported cs'.
Proof. unfold modules_reported. apply omap_app. Qed.

(** [handleContext] has been called once if [reportedContext] is set,
    and not at all otherwise. *)
Lemma context_calls_reported (pats : list RegExp) (w : W) (ops : list Op) :
  context_calls (calls (reached1 pats w ops))
  = (if reportedContext (reached1 pats w ops) then 1 else 0).
Proof.
  unfold reached.
  apply (run_invariant
           (fun st => context_calls (calls st) = if reportedContext st then 1 else 0));
    [|apply wf_fresh|reflexivity].
  assert (Hseen : forall x : State W,
             context_calls (calls x) = (if reportedContext x then 1 else 0) ->
             context_calls (calls (report_state1 x))
             = (if reportedContext (report_state1 x) then 1 else 0)).
  { intros x Hx. destruct (report_state_effect x) as (Hc & Hr & _).
    rewrite Hc, Hr, !context_calls_app, Hx.
    unfold context_due.
    destruct (reportedContext x); simpl.
    - rewrite andb_false_r. simpl.
      destruct (module_due handleModule x); reflexivity.
    - rewrite andb_true_r.
      destruct (truthy_obj handleContext && truthy_str (lastContext x)
                && truthy_str (lastModule x));
        destruct (module_due handleModule x); reflexivity. }
  intros op st Hwf. revert op st Hwf.
  apply (step_cases (fun _ st st' =>
           context_calls (calls st) = (if reportedContext st then 1 else 0) ->
           context_calls (calls st') = (if reportedContext st' then 1 else 0)));
    try (intros; simpl; auto; fail).
  - intros st l o s _ _ _ _ _ H. apply Hseen. exact H.
  - intros st l o s _ _ _ _ _ H. apply Hseen. exact H.
Qed.

(** Over the whole life of an instrumenter, [handleContext] is called at
    most once. *)
Lemma context_called_at_most_once (pats : list RegExp) (w : W) (ops : list Op) :
  context_calls (calls (reached1 pats w ops)) <= 1.
Proof.
  rewrite context_calls_reported. destruct (reportedContext _); lia.
Qed.

(** Between two calls, no module is waiting to be reported. *)
Lemma module_never_pending (pats : list RegExp) (w : W) (ops : list Op) :
  module_due handleModule (reached1 pats w ops) = false.
Proof.
  unfold reached.
  apply (run_invariant (fun st => module_due handleModule st = false));
    [|apply wf_fresh|unfold module_due; simpl; apply andb_false_r].
  assert (Hseen : forall x : State W, module_due handleModule (report_state1 x) = false).
  { intros x. destruct (report_state_effect x) as (_ & _ & Hm).
    destruct (report_state_frame x) as (_ & _ & _ & Hc).
    unfold module_due in *. rewrite Hm, Hc.
    destruct (truthy_obj handleModule && truthy_str (lastContext x)
              && truthy_str (lastModule x)) eqn:E.
    - simpl. apply andb_false_r.
    - exact E. }
  intros op st Hwf. revert op st Hwf.
  apply (step_cases (fun _ st st' =>
           module_due handleModule st = false ->
           module_due handleModule st' = false));
    try (intros; simpl; auto; fail).
  - intros. apply Hseen.
  - intros. apply Hseen.
Qed.

(** ** Handlers that were not passed *)

Lemma call_test_returns (l : loc) (o : RegExpObj) (s : string) (st : State W) :
  wf st -> heap st !! l = Some o ->
  exists b, fst (call_test1 l s st) = Normal b.
Proof.
  intros Hwf Ho. rewrite (call_test_eq l o s st Hwf Ho). eexists. reflexivity.
Qed.

Lemma no_handler_no_call (pats : list RegExp) (w : W) (ops : list Op) :
  (handleContext = None -> context_calls (calls (reached1 pats w ops)) = 0) /\
  (handleModule = None -> module_calls (calls (reached1 pats w ops)) = 0).
Proof.
  split; intros Hnone; unfold reached.
  - apply (run_invariant (fun st => context_calls (calls st) = 0));
      [|apply wf_fresh|reflexivity].
    assert (Hseen : forall x : State W,
               context_calls (calls x) = 0 ->
               context_calls (calls (report_state1 x)) = 0).
    { intros x Hx. destruct (report_state_effect x) as (Hc & _).
      rewrite Hc, !context_calls_app, Hx. unfold context_due.
      rewrite Hnone. simpl. destruct (module_due handleModule x); reflexivity. }
    intros op st Hwf. revert op st Hwf.
    apply (step_cases (fun _ st st' =>
             context_calls (calls st) = 0 -> context_calls (calls st') = 0));
      try (intros; simpl; auto; fail).
    + intros st l o s _ _ _ _ _ H. apply Hseen. exact H.
    + intros st l o s _ _ _ _ _ H. apply Hseen. exact H.
  - apply (run_invariant (fun st => module_calls (calls st) = 0));
      [|apply wf_fresh|reflexivity].
    assert (Hseen : forall x : State W,
               module_calls (calls x) = 0 ->
               module_calls (calls (report_state1 x)) = 0).
    { intros x Hx. destruct (report_state_effect x) as (Hc & _).
      rewrite Hc, !module_calls_app, Hx. unfold module_due.
      rewrite Hnone. simpl. destruct (context_due handleContext x); reflexivity. }
    intros op st Hwf. revert op st Hwf.
    apply (step_cases (fun _ st st' =>
             module_calls (calls st) = 0 -> module_calls (calls st') = 0));
      try (intros; simpl; auto; fail).
    + intros st l o s _ _ _ _ _ H. apply Hseen. exact H.
    + intros st l o s _ _ _ _ _ H. apply Hseen. exact H.
Qed.

(** A [test] of a wrapped pattern that matched a string which is not the
    last one seen leaves the state [report] makes of it. *)
Lemma module_match_state (m : loc) (o : RegExpObj) (s : string) (st : State W) :
  wf st -> heap st !! m = Some o -> test_prop o = ModuleWrapper ->
  fst (native_test (fields o) s) = true -> strict_neq s (lastModule st) = true ->
  call_test1 m s st
  = (Normal true,
     report_state1 (set_lastModule (Some s) (tested native_test m o s st))).
Proof.
  intros Hwf Ho Ht Hr Hn.
  rewrite (call_test_eq m o s st Hwf Ho), Ht, Hr, Hn. reflexivity.
Qed.

Lemma context_match_state (l : loc) (o : RegExpObj) (s : string) (st : State W) :
  wf st -> heap st !! l = Some o -> test_prop o = ContextWrapper ->
  fst (native_test (fields o) s) = true -> strict_neq s (lastContext st) = true ->
  call_test1 l s st
  = (Normal true,
     report_state1 (set_lastContext (Some s) (tested native_test l o s st))).
Proof.
  intros Hwf Ho Ht Hr Hn.
  rewrite (call_test_eq l o s st Hwf Ho), Ht, Hr, Hn. reflexivity.
Qed.

Lemma truthy_str_nonempty (s : string) : s <> "" -> truthy_str (Some s) = true.
Proof. intros H. simpl. apply negb_true_iff, String.eqb_neq, H. Qed.

(** C7. Whatever handlers were passed, [report] never throws, and a
    [test] of an object of the heap returns.

    Without [handleContext]: no call of it is ever in the trace; [report]
    is its module part alone; and module notifications go on by the
    normal rules. With [handleModule] passed, a match of the wrapped
    module pattern for a non-empty string under a truthy [lastContext]
    makes exactly one call, [handleModule(s, lastContext, contextRegex,
    moduleRegex)], and clears [lastModule]; a match of the wrapped context
    pattern for a new non-empty string while a module is pending makes
    exactly one call, of [handleModule] for the pending module under the
    new context.

    Without [handleModule], symmetrically: no call of it is ever in the
    trace; [report] is its context part alone; and with [handleContext]
    passed and nothing reported yet, the match that makes both
    [lastContext] and [lastModule] truthy makes exactly one call, of
    [handleContext], and [lastModule] stays. *)
Theorem missing_handler_is_skipped
    (pats : list RegExp) (w : W) (ops : list Op) :
  (forall st, fst (report1 st) = Normal tt) /\
  (forall l o s,
      heap (reached1 pats w ops) !! l = Some o ->
      exists b, fst (call_test1 l s (reached1 pats w ops)) = Normal b) /\
  (handleContext = None ->
   context_calls (calls (reached1 pats w ops)) = 0 /\
   (forall st, report1 st = (Normal tt, report_module handleModule st)) /\
   (forall (h : ModuleHandler W) m o s,
       handleModule = Some h ->
       heap (reached1 pats w ops) !! m = Some o -> test_prop o = ModuleWrapper ->
       truthy_str (lastContext (reached1 pats w ops)) = true ->
       fst (native_test (fields o) s) = true -> s <> "" ->
       exists st',
         call_test1 m s (reached1 pats w ops) = (Normal true, st') /\
         calls st'
         = calls (reached1 pats w ops)
           ++ [CallModule (Some s) (lastContext (reached1 pats w ops))
                          (contextRegex (reached1 pats w ops))
                          (moduleRegex (reached1 pats w ops))] /\
         world st'
         = h (Some s) (lastContext (reached1 pats w ops))
             (contextRegex (reached1 pats w ops))
             (moduleRegex (reached1 pats w ops))
             (world (reached1 pats w ops)) /\
         lastModule st' = None) /\
   (forall (h : ModuleHandler W) l o s p,
       handleModule = Some h ->
       heap (reached1 pats w ops) !! l = Some o -> test_prop o = ContextWrapper ->
       fst (native_test (fields o) s) = true -> s <> "" ->
       strict_neq s (lastContext (reached1 pats w ops)) = true ->
       lastModule (reached1 pats w ops) = Some p -> p <> "" ->
       exists st',
         call_test1 l s (reached1 pats w ops) = (Normal true, st') /\
         calls st'
         = calls (reached1 pats w ops)
           ++ [CallModule (Some p) (Some s)
                          (contextRegex (reached1 pats w ops))
                          (moduleRegex (reached1 pats w ops))] /\
         world st'
         = h (Some p) (Some s)
             (contextRegex (reached1 pats w ops))
             (moduleRegex (reached1 pats w ops))
             (world (reached1 pats w ops)) /\
         lastContext st' = Some s /\ lastModule st' = None)) /\
  (handleModule = None ->
   module_calls (calls (reached1 pats w ops)) = 0 /\
   (forall st, report1 st = (Normal tt, report_context handleContext st)) /\
   (forall (h : ContextHandler W) m o s,
       handleContext = Some h ->
       heap (reached1 pats w ops) !! m = Some o -> test_prop o = ModuleWrapper ->
       truthy_str (lastContext (reached1 pats w ops)) = true ->
       reportedContext (reached1 pats w ops) = false ->
       fst (native_test (fields o) s) = true -> s <> "" ->
       strict_neq s (lastModule (reached1 pats w ops)) = true ->
       exists st',
         call_test1 m s (reached1 pats w ops) = (Normal true, st') /\
         calls st'
         = calls (reached1 pats w ops)
           ++ [CallContext (lastContext (reached1 pats w ops))
                           (contextRegex (reached1 pats w ops))
                           (moduleRegex (reached1 pats w ops))] /\
         world st'
         = h (lastContext (reached1 pats w ops))
             (contextRegex (reached1 pats w ops))
             (moduleRegex (reached1 pats w ops))
             (world (reached1 pats w ops)) /\
         reportedContext st' = true /\ lastModule st' = Some s) /\
   (forall (h : ContextHandler W) l o s p,
       handleContext = Some h ->
       heap (reached1 pats w ops) !! l = Some o -> test_prop o = ContextWrapper ->
       fst (native_test (fields o) s) = true -> s <> "" ->
       strict_neq s (lastContext (reached1 pats w ops)) = true ->
       lastModule (reached1 pats w ops) = Some p -> p <> "" ->
       reportedContext (reached1 pats w ops) = false ->
       exists st',
         call_test1 l s (reached1 pats w ops) = (Normal true, st') /\
         calls st'
         = calls (reached1 pats w ops)
           ++ [CallContext (Some s)
                           (contextRegex (reached1 pats w ops))
                           (moduleRegex (reached1 pats w ops))] /\
         world st'
         = h (Some s)
             (contextRegex (reached1 pats w ops))
             (moduleRegex (reached1 pats w ops))
             (world (reached1 pats w ops)) /\
         reportedContext st' = true /\
         lastContext st' = Some s /\ lastModule st' = Some p)).
Proof.
  pose proof (wf_reached pats w ops) as Hwf.
  pose proof (module_never_pending pats w ops) as Hpend.
  set (R := reached1 pats w ops) in *.
  split; [intros st; rewrite report_eq; reflexivity|].
  split; [intros l o s Ho; eapply call_test_returns; [exact Hwf|exact Ho]|].
  split; intros Hnone.
  - split; [apply no_handler_no_call, Hnone|].
    split; [intros st; rewrite report_eq; unfold report_state, report_context;
            rewrite Hnone; reflexivity|].
    split.
    + intros h m o s Hh Ho Ht Hc Hr Hs.
      assert (Hn : strict_neq s (lastModule R) = true).
      { unfold module_due in Hpend.
        assert (Hobj : truthy_obj handleModule = true) by (rewrite Hh; reflexivity).
        rewrite Hobj, Hc in Hpend. simpl in Hpend.
        destruct (lastModule R) as [t|]; [|reflexivity]. simpl in *.
        apply negb_false_iff, String.eqb_eq in Hpend. subst t.
        apply negb_true_iff, String.eqb_neq, Hs. }
      rewrite (module_match_state m o s R Hwf Ho Ht Hr Hn).
      eexists. split; [reflexivity|].
      unfold report_state, report_context, report_module, module_due.
      rewrite Hnone, Hh. cbn [truthy_obj andb lastContext lastModule
                              set_lastModule tested set_heap].
      rewrite Hc, (truthy_str_nonempty s Hs). simpl. auto.
    + intros h l o s p Hh Ho Ht Hr Hs Hn Hp Hpe.
      rewrite (context_match_state l o s R Hwf Ho Ht Hr Hn).
      eexists. split; [reflexivity|].
      unfold report_state, report_context, report_module, module_due.
      rewrite Hnone, Hh. cbn [truthy_obj andb lastContext lastModule
                              set_lastContext tested set_heap].
      rewrite Hp, (truthy_str_nonempty s Hs), (truthy_str_nonempty p Hpe).
      simpl. auto.
  - split; [apply no_handler_no_call, Hnone|].
    split; [intros st; rewrite report_eq; unfold report_state, report_module;
            rewrite Hnone; reflexivity|].
    split.
    + intros h m o s Hh Ho Ht Hc Hrep Hr Hs Hn.
      rewrite (module_match_state m o s R Hwf Ho Ht Hr Hn).
      eexists. split; [reflexivity|].
      unfold report_state, report_context, report_module, context_due.
      rewrite Hnone, Hh. cbn [truthy_obj andb lastContext lastModule reportedContext
                              set_lastModule tested set_heap].
      rewrite Hc, Hrep, (truthy_str_nonempty s Hs). simpl. auto.
    + intros h l o s p Hh Ho Ht Hr Hs Hn Hp Hpe Hrep.
      rewrite (context_match_state l o s R Hwf Ho Ht Hr Hn).
      eexists. split; [reflexivity|].
      unfold report_state, report_context, report_module, context_due.
      rewrite Hnone, Hh. cbn [truthy_obj andb lastContext lastModule reportedContext
                              set_lastContext tested set_heap].
      rewrite Hp, Hrep, (truthy_str_nonempty s Hs), (truthy_str_nonempty p Hpe).
      simpl. auto 10.
Qed.

(** ** Module matches *)

(** A matching [test] of the wrapped module pattern, for a string that
    is not the one in [lastModule], with [handleModule] passed and a
    truthy [lastContext]: [handleModule] is called for the string, and
    [lastModule] is null again. *)
Lemma module_match_reported
    (h : ModuleHandler W) (m : loc) (o : RegExpObj) (s : string) (st : State W) :
  wf st -> heap st !! m = Some o -> test_prop o = ModuleWrapper ->
  handleModule = Some h -> truthy_str (lastContext st) = true ->
  fst (native_test (fields o) s) = true -> s <> "" ->
  strict_neq s (lastModule st) = true ->
  exists st',
    call_test1 m s st = (Normal true, st') /\
    modules_reported (calls st') = modules_reported (calls st) ++ [Some s] /\
    last (calls st')
    = Some (CallModule (Some s) (lastContext st) (contextRegex st) (moduleRegex st)) /\
    lastModule st' = None /\
    lastContext st' = lastContext st /\
    heap st' !! m = Some (with_lastIndex o (snd (native_test (fields o) s))).
Proof.
  intros Hwf Ho Ht Hh Hc Hr Hs Hn.
  rewrite (call_test_eq m o s st Hwf Ho), Ht, Hr, Hn. simpl.
  eexists. split; [reflexivity|]. unfold module_seen.
  set (x := set_lastModule (Some s) (tested native_test m o s st)).
  destruct (report_state_effect x) as (Hcalls & _ & Hm).
  destruct (report_state_frame x) as (Hheap & _ & _ & Hctx).
  assert (Hdue : module_due handleModule x = true).
  { unfold module_due. rewrite Hh. simpl. rewrite Hc. simpl.
    apply negb_true_iff, String.eqb_neq, Hs. }
  rewrite Hdue in Hcalls, Hm. rewrite Hcalls, Hm, Hheap, Hctx.
  repeat split.
  - rewrite !modules_reported_app. simpl.
    destruct (context_due handleContext x); simpl; rewrite ?app_nil_r; reflexivity.
  - rewrite app_assoc, last_snoc. reflexivity.
  - simpl. apply list_lookup_insert_eq. eapply lookup_lt_Some, Ho.
Qed.

(** A [test] of the wrapped module pattern for the string [lastModule]
    holds calls nothing. *)
Lemma module_repeat_silent (m : loc) (o : RegExpObj) (s : string) (st : State W) :
  wf st -> heap st !! m = Some o -> test_prop o = ModuleWrapper ->
  lastModule st = Some s ->
  calls (snd (call_test1 m s st)) = calls st /\
  world (snd (call_test1 m s st)) = world st.
Proof.
  intros Hwf Ho Ht Hm. rewrite (call_test_eq m o s st Hwf Ho), Ht, Hm. simpl.
  rewrite String.eqb_refl. simpl. rewrite andb_false_r. simpl. auto.
Qed.

(** C6. (1) When [handleModule] was passed and [lastContext] and
    [lastModule] are truthy, [report] calls it with [lastModule],
    [lastContext], [contextRegex] and [moduleRegex], after the call of
    [handleContext] if that one is due, and sets [lastModule] to null;
    in any other state it does not call it. (2) A [test] of the wrapped
    module pattern for the string that [lastModule] holds calls nothing.
    (3) With [handleModule] passed and a context matched, the wrapped
    module pattern matching "x.js", "x.js", "y.js" in a row makes
    [handleModule] called for "x.js", for "x.js" again and for "y.js":
    the report of the first "x.js" had set [lastModule] to null. *)
Theorem module_reported_then_cleared
    (pats : list RegExp) (w : W) (ops : list Op) :
  (forall (h : ModuleHandler W) (st : State W),
      handleModule = Some h ->
      truthy_str (lastContext st) = true -> truthy_str (lastModule st) = true ->
      exists st',
        report1 st = (Normal tt, st') /\
        calls st'
        = calls (report_context handleContext st)
          ++ [CallModule (lastModule st) (lastContext st)
                         (contextRegex st) (moduleRegex st)] /\
        world st'
        = h (lastModule st) (lastContext st) (contextRegex st) (moduleRegex st)
            (world (report_context handleContext st)) /\
        lastModule st' = None) /\
  (forall st : State W,
      module_due handleModule st = false ->
      modules_reported (calls (snd (report1 st))) = modules_reported (calls st)) /\
  (forall m o s,
      heap (reached1 pats w ops) !! m = Some o -> test_prop o = ModuleWrapper ->
      lastModule (reached1 pats w ops) = Some s ->
      calls (snd (call_test1 m s (reached1 pats w ops)))
      = calls (reached1 pats w ops)) /\
  (forall (h : ModuleHandler W) m o,
      handleModule = Some h ->
      heap (reached1 pats w ops) !! m = Some o -> test_prop o = ModuleWrapper ->
      truthy_str (lastContext (reached1 pats w ops)) = true ->
      native_results native_test (fields o) ["x.js"; "x.js"; "y.js"]
      = [true; true; true] ->
      exists st1 st2 st3,
        call_test1 m "x.js" (reached1 pats w ops) = (Normal true, st1) /\
        call_test1 m "x.js" st1 = (Normal true, st2) /\
        call_test1 m "y.js" st2 = (Normal true, st3) /\
        lastModule st1 = None /\
        modules_reported (calls st3)
        = modules_reported (calls (reached1 pats w ops))
          ++ [Some "x.js"; Some "x.js"; Some "y.js"]).
Proof.
  pose proof (wf_reached pats w ops) as Hwf.
  pose proof (module_never_pending pats w ops) as Hpend.
  set (st := reached1 pats w ops) in *.
  split; [|split; [|split]].
  - intros h x Hh Hc Hm. rewrite report_eq. eexists. split; [reflexivity|].
    unfold report_state, report_module. rewrite Hh.
    assert (Hdue : module_due (Some h) (report_context handleContext x) = true).
    { unfold module_due, report_context.
      destruct handleContext; [destruct (context_due _ x)|]; simpl;
        rewrite Hc, Hm; reflexivity. }
    rewrite Hdue. simpl.
    assert (Hsame : lastModule (report_context handleContext x) = lastModule x /\
                    lastContext (report_context handleContext x) = lastContext x /\
                    contextRegex (report_context handleContext x) = contextRegex x /\
                    moduleRegex (report_context handleContext x) = moduleRegex x).
    { unfold report_context.
      destruct handleContext; [destruct (context_due _ x)|]; simpl; auto. }
    destruct Hsame as (-> & -> & -> & ->). auto.
  - intros x Hdue. rewrite report_eq. simpl.
    destruct (report_state_effect x) as (Hc & _). rewrite Hc, Hdue.
    rewrite !modules_reported_app.
    destruct (context_due handleContext x); simpl; rewrite !app_nil_r; reflexivity.
  - intros m o s Ho Ht Hm. apply (module_repeat_silent m o s st Hwf Ho Ht Hm).
  - intros h m o Hh Ho Ht Hc Hres. simpl in Hres.
    injection Hres as Hr1 Hr2 Hr3.
    assert (Hn : strict_neq "x.js" (lastModule st) = true).
    { unfold module_due in Hpend. rewrite Hh, Hc in Hpend. simpl in Hpend.
      destruct (lastModule st) as [t|]; [|reflexivity]. simpl in *.
      apply negb_false_iff, String.eqb_eq in Hpend. subst t. reflexivity. }
    destruct (module_match_reported h m o "x.js" st Hwf Ho Ht Hh Hc Hr1
                ltac:(discriminate) Hn)
      as (st1 & E1 & Hrep1 & _ & Hm1 & Hc1 & Ho1).
    assert (Hwf1 : wf st1).
    { pose proof (wf_call_test m "x.js" st Hwf) as H. rewrite E1 in H. exact H. }
    rewrite <- Hc1 in Hc.
    destruct (module_match_reported h m _ "x.js" st1 Hwf1 Ho1 Ht Hh Hc Hr2
                ltac:(discriminate) ltac:(rewrite Hm1; reflexivity))
      as (st2 & E2 & Hrep2 & _ & Hm2 & Hc2 & Ho2).
    assert (Hwf2 : wf st2).
    { pose proof (wf_call_test m "x.js" st1 Hwf1) as H. rewrite E2 in H. exact H. }
    rewrite <- Hc2 in Hc.
    destruct (module_match_reported h m _ "y.js" st2 Hwf2 Ho2 Ht Hh Hc Hr3
                ltac:(discriminate) ltac:(rewrite Hm2; reflexivity))
      as (st3 & E3 & Hrep3 & _).
    exists st1, st2, st3. repeat split; try assumption.
    rewrite Hrep3, Hrep2, Hrep1, <- !app_assoc. reflexivity.
Qed.

(** ** The closure variables fit together *)

Lemma truthy_str_Some (v : option string) :
  truthy_str v = true -> exists s, v = Some s /\ s <> "".
Proof.
  destruct v as [s|]; simpl; [|discriminate].
  intros H. exists s. split; [reflexivity|].
  apply String.eqb_neq, negb_true_iff, H.
Qed.

Lemma coherent_report_state (st : State W) :
  coherent st -> coherent (report_state1 st).
Proof.
  intros (H1 & H2 & H3 & H4 & H5).
  destruct (report_state_frame st) as (Hh & Hc & Hm & Hl).
  destruct (report_state_effect st) as (Hcalls & _ & Hlm).
  unfold coherent. rewrite Hh, Hc, Hm, Hl, Hcalls, Hlm.
  repeat split; try assumption.
  - intros Hn. destruct (module_due handleModule st); auto.
  - assert (Hboth : truthy_str (lastContext st) = true ->
                    truthy_str (lastModule st) = true ->
                    truthy_obj (contextRegex st) = true /\
                    truthy_obj (moduleRegex st) = true).
    { intros Hc' Hm'. split.
      - destruct (contextRegex st); [reflexivity|].
        rewrite (H3 eq_refl) in Hc'. discriminate Hc'.
      - destruct (moduleRegex st); [reflexivity|].
        rewrite (H4 eq_refl) in Hm'. discriminate Hm'. }
    apply Forall_app. split; [exact H5|].
    apply Forall_app. split.
    + destruct (context_due handleContext st) eqn:E; [|constructor].
      unfold context_due in E.
      apply andb_true_iff in E as [E _]. apply andb_true_iff in E as [E Em].
      apply andb_true_iff in E as [_ Ec].
      destruct (Hboth Ec Em). repeat constructor; assumption.
    + destruct (module_due handleModule st) eqn:E; [|constructor].
      unfold module_due in E.
      apply andb_true_iff in E as [E Em]. apply andb_true_iff in E as [_ Ec].
      destruct (Hboth Ec Em). repeat constructor; assumption.
Qed.

Lemma coherent_tested (l : loc) (o : RegExpObj) (s : string) (st : State W) :
  heap st !! l = Some o -> coherent st -> coherent (tested native_test l o s st).
Proof.
  intros Ho (H1 & H2 & H3 & H4 & H5).
  pose proof (lookup_lt_Some _ _ _ Ho) as Hlt.
  unfold coherent. simpl. repeat split; try assumption.
  - intros c Hc. destruct (H1 c Hc) as (oc & Hoc & Ht).
    destruct (decide (l = c)) as [->|Hne].
    + rewrite list_lookup_insert_eq by exact Hlt. eexists. split; [reflexivity|].
      simpl. congruence.
    + rewrite list_lookup_insert_ne by exact Hne. eauto.
  - intros m Hm. destruct (H2 m Hm) as (om & Hom & Ht).
    destruct (decide (l = m)) as [->|Hne].
    + rewrite list_lookup_insert_eq by exact Hlt. eexists. split; [reflexivity|].
      simpl. congruence.
    + rewrite list_lookup_insert_ne by exact Hne. eauto.
Qed.

Lemma Forall_ill_formed (mr : option loc) (cs : list Call) :
  (Forall (call_well_formed None mr) cs -> cs = []) /\
  (Forall (call_well_formed mr None) cs -> cs = []).
Proof.
  split; (destruct cs as [|c cs]; [reflexivity|]); intros H;
    apply Forall_cons in H as [H _]; exfalso;
    destruct c; simpl in H; destruct mr; simpl in H;
    repeat match goal with H : _ /\ _ |- _ => destruct H end; discriminate.
Qed.

Lemma coherent_step (op : Op) (st : State W) :
  wf st -> coherent st -> coherent (snd (step1 op st)).
Proof.
  revert op st.
  apply (step_cases (fun _ st st' => coherent st -> coherent st')).
  - auto.
  - intros st regExp o Hc Ho (H1 & H2 & H3 & H4 & H5).
    rewrite Hc in H5. apply Forall_ill_formed in H5.
    unfold coherent. simpl. rewrite H5. repeat split; auto.
    + intros c [= <-]. rewrite lookup_app_r by lia. rewrite Nat.sub_diag.
      eexists. split; reflexivity.
    + intros m Hm. destruct (H2 m Hm) as (om & Hom & Ht).
      rewrite lookup_app_l by (eapply lookup_lt_Some, Hom). eauto.
  - intros st regExp o Hm Ho (H1 & H2 & H3 & H4 & H5).
    rewrite Hm in H5. apply Forall_ill_formed in H5.
    unfold coherent. simpl. rewrite H5. repeat split; auto.
    + intros c Hc. destruct (H1 c Hc) as (oc & Hoc & Ht).
      rewrite lookup_app_l by (eapply lookup_lt_Some, Hoc). eauto.
    + intros m [= <-]. rewrite lookup_app_r by lia. rewrite Nat.sub_diag.
      eexists. split; reflexivity.
  - intros st l o s Ho. apply coherent_tested, Ho.
  - intros st l o s Ho Hc _ _ _ Hcoh. unfold context_seen.
    apply coherent_report_state.
    destruct (coherent_tested l o s st Ho Hcoh) as (H1 & H2 & H3 & H4 & H5).
    unfold coherent. simpl in *. repeat split; try assumption.
    rewrite Hc. discriminate.
  - intros st l o s Ho Hm _ _ _ Hcoh. unfold module_seen.
    apply coherent_report_state.
    destruct (coherent_tested l o s st Ho Hcoh) as (H1 & H2 & H3 & H4 & H5).
    unfold coherent. simpl in *. repeat split; try assumption.
    rewrite Hm. discriminate.
Qed.

Lemma coherent_reached (pats : list RegExp) (w : W) (ops : list Op) :
  coherent (reached1 pats w ops).
Proof.
  unfold reached. apply (run_invariant coherent).
  - apply coherent_step.
  - apply wf_fresh.
  - unfold coherent. simpl. repeat split; try discriminate. constructor.
Qed.

(** X1. Over the whole life of an instrumenter [handleContext] is called
    at most once: the number of its calls is 1 when [reportedContext] is
    set and 0 when it is not. *)
Theorem handleContext_at_most_once (pats : list RegExp) (w : W) (ops : list Op) :
  context_calls (calls (reached1 pats w ops)) <= 1 /\
  (context_calls (calls (reached1 pats w ops)) = 1
   <-> reportedContext (reached1 pats w ops) = true).
Proof.
  rewrite context_calls_reported.
  destruct (reportedContext (reached1 pats w ops)); split; try lia;
    split; intros H; try reflexivity; discriminate H.
Qed.

(** X2. Every call a handler has received carries truthy strings (never
    null, never the empty string) and, for the two patterns, the two
    wrapped clones: both closure variables were defined at the call, have
    not changed since, and point to the objects with the interceptors. *)
Theorem handler_calls_well_formed
    (pats : list RegExp) (w : W) (ops : list Op) (c : Call) :
  In c (calls (reached1 pats w ops)) ->
  call_well_formed (contextRegex (reached1 pats w ops))
                   (moduleRegex (reached1 pats w ops)) c /\
  exists cl ml oc om,
    contextRegex (reached1 pats w ops) = Some cl /\
    moduleRegex (reached1 pats w ops) = Some ml /\
    heap (reached1 pats w ops) !! cl = Some oc /\ test_prop oc = ContextWrapper /\
    heap (reached1 pats w ops) !! ml = Some om /\ test_prop om = ModuleWrapper.
Proof.
  intros Hin.
  destruct (coherent_reached pats w ops) as (H1 & H2 & _ & _ & H5).
  rewrite Forall_forall in H5. apply list_elem_of_In in Hin.
  pose proof (H5 c Hin) as Hc. split; [exact Hc|].
  assert (Hobj : truthy_obj (contextRegex (reached1 pats w ops)) = true /\
                 truthy_obj (moduleRegex (reached1 pats w ops)) = true).
  { destruct c; simpl in Hc; tauto. }
  destruct Hobj as [Hcl Hml].
  destruct (contextRegex (reached1 pats w ops)) as [cl|] eqn:Ecl; [|discriminate Hcl].
  destruct (moduleRegex (reached1 pats w ops)) as [ml|] eqn:Eml; [|discriminate Hml].
  destruct (H1 cl eq_refl) as (oc & Hoc & Htc).
  destruct (H2 ml eq_refl) as (om & Hom & Htm).
  exists cl, ml, oc, om. auto 10.
Qed.

(** ** What a [test] leaves alone *)

Lemma call_test_heap (l : loc) (o : RegExpObj) (s : string) (st : State W) :
  wf st -> heap st !! l = Some o ->
  heap (snd (call_test1 l s st))
  = <[l := with_lastIndex o (snd (native_test (fields o) s))]> (heap st).
Proof.
  intros Hwf Ho. rewrite (call_test_eq l o s st Hwf Ho). simpl.
  destruct (test_prop o); [reflexivity| |]; destruct (_ && _); try reflexivity.
  - rewrite (proj1 (seen_heap s _)). reflexivity.
  - rewrite (proj2 (seen_heap s _)). reflexivity.
Qed.

(** X5. A [test] is silent, that is, it changes the [lastIndex] of the
    tested object and nothing else (no handler called, no closure variable
    written), whenever the object is not one of the two wrapped patterns,
    or the engine does not match, or the string is the one already in
    [lastContext] (for the wrapped context pattern) or in [lastModule]
    (for the wrapped module pattern). *)
Theorem silent_tests
    (pats : list RegExp) (w : W) (ops : list Op) (l : loc) (o : RegExpObj) (s : string) :
  heap (reached1 pats w ops) !! l = Some o ->
  test_prop o = ProtoTest
  \/ fst (native_test (fields o) s) = false
  \/ (test_prop o = ContextWrapper /\ lastContext (reached1 pats w ops) = Some s)
  \/ (test_prop o = ModuleWrapper /\ lastModule (reached1 pats w ops) = Some s) ->
  call_test1 l s (reached1 pats w ops)
  = (Normal (fst (native_test (fields o) s)),
     set_heap (<[l := with_lastIndex o (snd (native_test (fields o) s))]>
                 (heap (reached1 pats w ops)))
              (reached1 pats w ops)).
Proof.
  intros Ho Hcase. pose proof (wf_reached pats w ops) as Hwf.
  rewrite (call_test_eq l o s _ Hwf Ho). unfold tested. f_equal.
  destruct Hcase as [Ht|[Hr|[[Ht Hl]|[Ht Hl]]]].
  - rewrite Ht. reflexivity.
  - rewrite Hr. simpl. destruct (test_prop o); reflexivity.
  - rewrite Ht, Hl. simpl. rewrite String.eqb_refl, andb_false_r. reflexivity.
  - rewrite Ht, Hl. simpl. rewrite String.eqb_refl, andb_false_r. reflexivity.
Qed.

(** X6. The two wrapped patterns are always two different objects, also
    when both were made from the same regular expression, and a [test] of
    one leaves the other as it is. *)
Theorem wrapped_patterns_apart
    (pats : list RegExp) (w : W) (ops : list Op) (c m : loc) :
  contextRegex (reached1 pats w ops) = Some c ->
  moduleRegex (reached1 pats w ops) = Some m ->
  c <> m /\
  forall s,
    heap (snd (call_test1 c s (reached1 pats w ops))) !! m
    = heap (reached1 pats w ops) !! m /\
    heap (snd (call_test1 m s (reached1 pats w ops))) !! c
    = heap (reached1 pats w ops) !! c.
Proof.
  intros Hc Hm. pose proof (wf_reached pats w ops) as Hwf.
  destruct (coherent_reached pats w ops) as (H1 & H2 & _).
  destruct (H1 c Hc) as (oc & Hoc & Htc). destruct (H2 m Hm) as (om & Hom & Htm).
  assert (Hne : c <> m).
  { intros ->. rewrite Hoc in Hom. injection Hom as ->.
    rewrite Htc in Htm. discriminate Htm. }
  split; [exact Hne|]. intros s. split.
  - rewrite (call_test_heap c oc s _ Hwf Hoc).
    apply list_lookup_insert_ne. exact Hne.
  - rewrite (call_test_heap m om s _ Hwf Hom).
    apply list_lookup_insert_ne. intros E. apply Hne. symmetry. exact E.
Qed.

(** ** What happens to the heap *)

Lemma step_keeps_object (op : Op) (st : State W) :
  wf st ->
  forall l o, heap st !! l = Some o ->
    exists o', heap (snd (step1 op st)) !! l = Some o' /\
               source (fields o') = source (fields o) /\
               flags (fields o') = flags (fields o) /\
               test_prop o' = test_prop o.
Proof.
  revert op st.
  assert (Htested : forall (st : State W) l' o' s l o,
             heap st !! l' = Some o' -> heap st !! l = Some o ->
             exists o2, heap (tested native_test l' o' s st) !! l = Some o2 /\
                        source (fields o2) = source (fields o) /\
                        flags (fields o2) = flags (fields o) /\
                        test_prop o2 = test_prop o).
  { intros st l' o' s l o Ho' Ho. simpl.
    destruct (decide (l' = l)) as [->|Hne].
    - rewrite list_lookup_insert_eq by (eapply lookup_lt_Some, Ho).
      eexists. split; [reflexivity|]. simpl.
      rewrite Ho in Ho'. injection Ho' as ->. auto.
    - rewrite list_lookup_insert_ne by exact Hne. eauto. }
  apply (step_cases (fun _ st st' =>
           forall l o, heap st !! l = Some o ->
             exists o', heap st' !! l = Some o' /\
                        source (fields o') = source (fields o) /\
                        flags (fields o') = flags (fields o) /\
                        test_prop o' = test_prop o)).
  - eauto.
  - intros st regExp o' _ _ l o Ho. simpl.
    rewrite lookup_app_l by (eapply lookup_lt_Some, Ho). eauto.
  - intros st regExp o' _ _ l o Ho. simpl.
    rewrite lookup_app_l by (eapply lookup_lt_Some, Ho). eauto.
  - intros st l' o' s Ho' l o Ho. apply Htested; assumption.
  - intros st l' o' s Ho' _ _ _ _ l o Ho.
    rewrite (proj1 (seen_heap s _)). apply Htested; assumption.
  - intros st l' o' s Ho' _ _ _ _ l o Ho.
    rewrite (proj2 (seen_heap s _)). apply Htested; assumption.
Qed.

Lemma run_keeps_object (ops : list Op) :
  forall (st : State W) l o,
    wf st -> heap st !! l = Some o ->
    exists o', heap (snd (run1 ops st)) !! l = Some o' /\
               source (fields o') = source (fields o) /\
               flags (fields o') = flags (fields o) /\
               test_prop o' = test_prop o.
Proof.
  induction ops as [|op ops IH]; intros st l o Hwf Ho; [eauto|].
  rewrite run_cons. simpl.
  destruct (step_keeps_object op st Hwf l o Ho) as (o1 & Ho1 & Hs1 & Hf1 & Ht1).
  destruct (IH _ l o1 (wf_step op st Hwf) Ho1) as (o2 & Ho2 & Hs2 & Hf2 & Ht2).
  exists o2. repeat split; congruence.
Qed.

(** X7. No call ever removes an object from the heap, rewrites the source
    or the flags of a regular expression, or changes what its [test]
    resolves to: apart from the two installs on the fresh clones, the only
    thing written in an object is its [lastIndex]. *)
Theorem objects_keep_source_flags_test
    (pats : list RegExp) (w : W) (ops ops' : list Op) (l : loc) (o : RegExpObj) :
  heap (reached1 pats w ops) !! l = Some o ->
  exists o',
    heap (reached1 pats w (ops ++ ops')) !! l = Some o' /\
    source (fields o') = source (fields o) /\
    flags (fields o') = flags (fields o) /\
    test_prop o' = test_prop o.
Proof.
  intros Ho. unfold reached. rewrite run_app.
  apply run_keeps_object; [apply wf_reached|exact Ho].
Qed.

(** X8. An instrumenter allocates one object for each pattern it wraps,
    hence at most two over its life, however many tests are run: the heap
    holds the objects that were there at its creation and the clones. *)
Theorem heap_grows_by_the_clones (pats : list RegExp) (w : W) (ops : list Op) :
  length (heap (reached1 pats w ops))
  = length pats + clones (reached1 pats w ops) /\
  clones (reached1 pats w ops) <= 2.
Proof.
  split.
  - unfold reached.
    apply (run_invariant (fun st => length (heap st) = length pats + clones st));
      [|apply wf_fresh|unfold clones; simpl; rewrite length_fmap; lia].
    intros op st Hwf. revert op st Hwf.
    apply (step_cases (fun _ st st' =>
             length (heap st) = length pats + clones st ->
             length (heap st') = length pats + clones st')).
    + auto.
    + intros st regExp o Hc _ H. unfold clones in *. simpl.
      rewrite Hc in H. simpl in H. rewrite length_app. simpl. lia.
    + intros st regExp o Hm _ H. unfold clones in *. simpl.
      rewrite Hm in H. simpl in H. rewrite length_app. simpl.
      destruct (truthy_obj (contextRegex st)); lia.
    + intros st l o s _ H. unfold clones in *. simpl.
      rewrite length_insert. exact H.
    + intros st l o s _ _ _ _ _ H. unfold context_seen, clones in *.
      destruct (report_state_frame
                  (set_lastContext (Some s) (tested native_test l o s st)))
        as (-> & -> & -> & _).
      simpl. rewrite length_insert. exact H.
    + intros st l o s _ _ _ _ _ H. unfold module_seen, clones in *.
      destruct (report_state_frame
                  (set_lastModule (Some s) (tested native_test l o s st)))
        as (-> & -> & -> & _).
      simpl. rewrite length_insert. exact H.
  - unfold clones.
    destruct (truthy_obj (contextRegex _)), (truthy_obj (moduleRegex _)); simpl; lia.
Qed.

(** ** The order of the calls *)

Lemma context_first_report (hc : ContextHandler W) (x : State W) :
  handleContext = Some hc ->
  context_first (truthy_obj handleModule) (reportedContext x) (calls x) ->
  context_first (truthy_obj handleModule)
                (reportedContext (report_state1 x)) (calls (report_state1 x)).
Proof.
  intros Hhc Hx. destruct (report_state_effect x) as (Hc & Hr & _).
  rewrite Hc, Hr. unfold context_due, module_due. rewrite Hhc. clear Hc Hr.
  destruct Hx as [[Hnil Hrep]|(Hrep & c & cr & mr & rest & Hcs & Hall & Hhm)].
  - rewrite Hnil, Hrep.
    destruct (truthy_obj handleModule), (truthy_str (lastContext x)),
             (truthy_str (lastModule x)); simpl;
      first [ left; split; reflexivity
            | right; split; [reflexivity|];
              eexists _, _, _, _; split; [reflexivity|]; split;
              [ repeat constructor
              | first [ discriminate | intros _; eexists _, _; reflexivity ] ] ].
  - rewrite Hcs, Hrep. right. rewrite orb_true_l. split; [reflexivity|].
    rewrite andb_false_r. simpl.
    eexists _, _, _, _. split; [reflexivity|]. split.
    + apply Forall_app. split; [exact Hall|].
      destruct (_ && _); repeat constructor.
    + intros H. destruct (Hhm H) as (m & rest' & ->).
      eexists _, _. reflexivity.
Qed.

(** X3. When [handleContext] was passed, the trace is empty until the
    first report; from then on it starts with the one call of
    [handleContext] and goes on with calls of [handleModule] only; and when
    [handleModule] was passed too, the call that follows [handleContext]
    is the call of [handleModule] for the same context and the same two
    patterns (both are made in one [report]). *)
Theorem context_call_comes_first
    (hc : ContextHandler W) (pats : list RegExp) (w : W) (ops : list Op) :
  handleContext = Some hc ->
  context_first (truthy_obj handleModule)
                (reportedContext (reached1 pats w ops)) (calls (reached1 pats w ops)).
Proof.
  intros Hhc. unfold reached.
  apply (run_invariant
           (fun st => context_first (truthy_obj handleModule)
                                    (reportedContext st) (calls st)));
    [|apply wf_fresh|left; auto].
  intros op st Hwf. revert op st Hwf.
  apply (step_cases (fun _ st st' =>
           context_first (truthy_obj handleModule) (reportedContext st) (calls st) ->
           context_first (truthy_obj handleModule) (reportedContext st') (calls st')));
    try (intros; simpl; auto; fail).
  - intros st l o s _ _ _ _ _ H. apply (context_first_report hc); assumption.
  - intros st l o s _ _ _ _ _ H. apply (context_first_report hc); assumption.
Qed.

(** X4. A module that matched while no context was there waits in
    [lastModule]: at the next match of the wrapped context pattern, for a
    non-empty string, [handleModule] is called for that module under the
    new context, and [lastModule] is null again. *)
Theorem pending_module_reported_at_context
    (h : ModuleHandler W) (pats : list RegExp) (w : W) (ops : list Op)
    (l : loc) (o : RegExpObj) (s m : string) :
  handleModule = Some h ->
  heap (reached1 pats w ops) !! l = Some o -> test_prop o = ContextWrapper ->
  fst (native_test (fields o) s) = true -> s <> "" ->
  strict_neq s (lastContext (reached1 pats w ops)) = true ->
  lastModule (reached1 pats w ops) = Some m -> m <> "" ->
  exists st',
    call_test1 l s (reached1 pats w ops) = (Normal true, st') /\
    modules_reported (calls st')
    = modules_reported (calls (reached1 pats w ops)) ++ [Some m] /\
    last (calls st')
    = Some (CallModule (Some m) (Some s)
                       (contextRegex (reached1 pats w ops))
                       (moduleRegex (reached1 pats w ops))) /\
    lastModule st' = None /\ lastContext st' = Some s.
Proof.
  intros Hh Ho Ht Hr Hs Hn Hm Hme. pose proof (wf_reached pats w ops) as Hwf.
  set (st := reached1 pats w ops) in *.
  rewrite (call_test_eq l o s st Hwf Ho), Ht, Hr, Hn. simpl.
  eexists. split; [reflexivity|]. unfold context_seen.
  set (x := set_lastContext (Some s) (tested native_test l o s st)).
  destruct (report_state_effect x) as (Hcalls & _ & Hlm).
  destruct (report_state_frame x) as (_ & _ & _ & Hctx).
  assert (Hdue : module_due handleModule x = true).
  { unfold module_due. rewrite Hh. simpl. rewrite Hm. simpl.
    apply andb_true_iff. split; apply negb_true_iff, String.eqb_neq; assumption. }
  rewrite Hdue in Hcalls, Hlm. rewrite Hcalls, Hlm, Hctx. simpl.
  repeat split.
  - rewrite !modules_reported_app. simpl. rewrite Hm.
    destruct (context_due handleContext x); simpl; rewrite ?app_nil_r; reflexivity.
  - rewrite app_assoc, last_snoc. rewrite Hm. reflexivity.
Qed.

(** ** [lastContext] *)

Lemma lastContext_step (op : Op) (st : State W) :
  wf st ->
  lastContext (snd (step1 op st)) = lastContext st
  \/ exists l s o,
       op = OpTest l s /\ heap st !! l = Some o /\ test_prop o = ContextWrapper /\
       fst (native_test (fields o) s) = true /\
       lastContext (snd (step1 op st)) = Some s.
Proof.
  revert op st.
  apply (step_cases (fun op st st' =>
           lastContext st' = lastContext st
           \/ exists l s o,
                op = OpTest l s /\ heap st !! l = Some o /\
                test_prop o = ContextWrapper /\
                fst (native_test (fields o) s) = true /\
                lastContext st' = Some s));
    try (intros; left; reflexivity).
  - intros st l o s Ho _ Ht Hr _. right. exists l, s, o.
    repeat split; try assumption. unfold context_seen.
    destruct (report_state_frame
                (set_lastContext (Some s) (tested native_test l o s st)))
      as (_ & _ & _ & ->). reflexivity.
  - intros st l o s _ _ _ _ _. left. unfold module_seen.
    destruct (report_state_frame
                (set_lastModule (Some s) (tested native_test l o s st)))
      as (_ & _ & _ & ->). reflexivity.
Qed.

(** X9. [lastContext] is written in one place only: a call changes it
    only if it is a [test] of the wrapped context pattern that matched,
    and then to the tested string. So it is never set back to null: once a
    context has matched, there is a last context for good. *)
Theorem lastContext_written_by_matches_only
    (pats : list RegExp) (w : W) (ops : list Op) :
  (forall op,
      lastContext (snd (step1 op (reached1 pats w ops)))
      = lastContext (reached1 pats w ops)
      \/ exists l s o,
           op = OpTest l s /\
           heap (reached1 pats w ops) !! l = Some o /\
           test_prop o = ContextWrapper /\
           fst (native_test (fields o) s) = true /\
           lastContext (snd (step1 op (reached1 pats w ops))) = Some s) /\
  (forall ops',
      lastContext (reached1 pats w ops) <> None ->
      lastContext (reached1 pats w (ops ++ ops')) <> None).
Proof.
  split.
  - intros op. apply lastContext_step, wf_reached.
  - intros ops' H. unfold reached. rewrite run_app.
    revert H. apply (run_invariant (fun st => lastContext st <> None));
      [|apply wf_reached].
    intros op st Hwf H.
    destruct (lastContext_step op st Hwf) as [->|(l & s & o & _ & _ & _ & _ & ->)];
      [exact H|discriminate].
Qed.

(** ** Every module match *)

Lemma module_matches_reported (h : ModuleHandler W) (m : loc) (ss : list string) :
  forall (o : RegExpObj) (st : State W),
    wf st -> heap st !! m = Some o -> test_prop o = ModuleWrapper ->
    handleModule = Some h ->
    truthy_str (lastContext st) = true -> truthy_str (lastModule st) = false ->
    Forall (fun s => s <> "") ss ->
    native_results native_test (fields o) ss = (fun _ => true) <$> ss ->
    modules_reported (calls (snd (run1 (OpTest m <$> ss) st)))
    = modules_reported (calls st) ++ (Some <$> ss).
Proof.
  induction ss as [|s ss IH]; intros o st Hwf Ho Ht Hh Hc Hm Hne Hres.
  - simpl. rewrite app_nil_r. reflexivity.
  - apply Forall_cons in Hne as [Hs Hne]. simpl in Hres.
    injection Hres as Hr Hres.
    assert (Hn : strict_neq s (lastModule st) = true).
    { destruct (lastModule st) as [t|]; [|reflexivity]. simpl in *.
      apply negb_false_iff, String.eqb_eq in Hm. subst t.
      apply negb_true_iff, String.eqb_neq, Hs. }
    destruct (module_match_reported h m o s st Hwf Ho Ht Hh Hc Hr Hs Hn)
      as (st' & E & Hrep & _ & Hm' & Hc' & Ho').
    assert (Est : snd (step1 (OpTest m s) st) = st')
      by (rewrite step_state, E; reflexivity).
    rewrite fmap_cons, run_cons. cbn [snd]. rewrite Est.
    rewrite (IH (with_lastIndex o (snd (native_test (fields o) s))) st');
      try assumption.
    + rewrite Hrep, <- app_assoc. reflexivity.
    + pose proof (wf_call_test m s st Hwf) as H. rewrite E in H. exact H.
    + rewrite Hc'. exact Hc.
    + rewrite Hm'. reflexivity.
Qed.

(** X10. With [handleModule] passed and a truthy [lastContext], every
    match of the wrapped module pattern for a non-empty string is reported,
    repeated strings included: testing the strings [ss] in a row, all
    matching, adds exactly [ss], in order, to the modules [handleModule]
    has been called for. *)
Theorem every_module_match_reported
    (h : ModuleHandler W) (pats : list RegExp) (w : W) (ops : list Op)
    (m : loc) (o : RegExpObj) (ss : list string) :
  handleModule = Some h ->
  heap (reached1 pats w ops) !! m = Some o -> test_prop o = ModuleWrapper ->
  truthy_str (lastContext (reached1 pats w ops)) = true ->
  Forall (fun s => s <> "") ss ->
  native_results native_test (fields o) ss = (fun _ => true) <$> ss ->
  modules_reported (calls (reached1 pats w (ops ++ (OpTest m <$> ss))))
  = modules_reported (calls (reached1 pats w ops)) ++ (Some <$> ss).
Proof.
  intros Hh Ho Ht Hc Hne Hres. unfold reached at 1. rewrite run_app.
  apply (module_matches_reported h m ss o); try assumption.
  - apply wf_reached.
  - pose proof (module_never_pending pats w ops) as Hp.
    assert (Hobj : truthy_obj handleModule = true) by (rewrite Hh; reflexivity).
    unfold module_due in Hp. rewrite Hobj, Hc in Hp. exact Hp.
Qed.

(** ** A context that matches again *)

Lemma reached_app (pats : list RegExp) (w : W) (ops ops' : list Op) :
  reached1 pats w (ops ++ ops') = snd (run1 ops' (reached1 pats w ops)).
Proof. unfold reached. apply run_app. Qed.

Lemma context_repeats_silent (l : loc) (s : string) (n : nat) :
  forall (o : RegExpObj) (st : State W),
    wf st -> heap st !! l = Some o -> test_prop o = ContextWrapper ->
    lastContext st = Some s ->
    calls (snd (run1 (repeat (OpTest l s) n) st)) = calls st /\
    world (snd (run1 (repeat (OpTest l s) n) st)) = world st /\
    lastContext (snd (run1 (repeat (OpTest l s) n) st)) = Some s.
Proof.
  induction n as [|n IH]; intros o st Hwf Ho Ht Hl; [auto|].
  pose proof (wf_call_test l s st Hwf) as Hwf'.
  pose proof (call_test_object l o s st Hwf Ho) as Ho'.
  assert (E : call_test1 l s st
              = (Normal (fst (native_test (fields o) s)),
                 tested native_test l o s st)).
  { rewrite (call_test_eq l o s st Hwf Ho), Ht, Hl. simpl.
    rewrite String.eqb_refl, andb_false_r. reflexivity. }
  assert (Est : snd (step1 (OpTest l s) st) = tested native_test l o s st)
    by (rewrite step_state, E; reflexivity).
  rewrite E in Hwf', Ho'. cbn [snd] in Hwf', Ho'.
  change (repeat (OpTest l s) (S n)) with (OpTest l s :: repeat (OpTest l s) n).
  rewrite run_cons. cbn [snd]. rewrite Est.
  destruct (IH _ _ Hwf' Ho' Ht Hl) as (Hc & Hw & Hl'). auto.
Qed.

(** X11. After a [test] of the wrapped context pattern that matched [s],
    [lastContext] is [s], and testing [s] again on it, any number of times,
    calls no handler. *)
Theorem repeated_context_is_silent
    (pats : list RegExp) (w : W) (ops : list Op)
    (l : loc) (o : RegExpObj) (s : string) (n : nat) :
  heap (reached1 pats w ops) !! l = Some o -> test_prop o = ContextWrapper ->
  fst (native_test (fields o) s) = true ->
  lastContext (reached1 pats w (ops ++ [OpTest l s])) = Some s /\
  calls (reached1 pats w (ops ++ OpTest l s :: repeat (OpTest l s) n))
  = calls (reached1 pats w (ops ++ [OpTest l s])) /\
  world (reached1 pats w (ops ++ OpTest l s :: repeat (OpTest l s) n))
  = world (reached1 pats w (ops ++ [OpTest l s])).
Proof.
  intros Ho Ht Hr. pose proof (wf_reached pats w ops) as Hwf.
  replace (ops ++ OpTest l s :: repeat (OpTest l s) n)
    with ((ops ++ [OpTest l s]) ++ repeat (OpTest l s) n)
    by (rewrite <- app_assoc; reflexivity).
  assert (Hl : lastContext (reached1 pats w (ops ++ [OpTest l s])) = Some s).
  { unfold reached. rewrite run_app. fold (reached1 pats w ops).
    rewrite run_cons. cbn [snd run]. rewrite step_state.
    rewrite (call_test_eq l o s _ Hwf Ho), Ht, Hr. cbn [snd andb].
    destruct (strict_neq s (lastContext (reached1 pats w ops))) eqn:Hn.
    - unfold context_seen.
      destruct (report_state_frame
                  (set_lastContext (Some s)
                     (tested native_test l o s (reached1 pats w ops))))
        as (_ & _ & _ & ->). reflexivity.
    - simpl. apply strict_neq_false, Hn. }
  split; [exact Hl|].
  assert (Ho' : exists o', heap (reached1 pats w (ops ++ [OpTest l s])) !! l = Some o'
                           /\ test_prop o' = ContextWrapper).
  { rewrite (reached_app pats w ops).
    destruct (run_keeps_object [OpTest l s] _ l o Hwf Ho)
      as (o' & H1 & _ & _ & H2). exists o'. split; [exact H1|congruence]. }
  destruct Ho' as (o' & Ho' & Ht').
  rewrite (reached_app pats w (ops ++ [OpTest l s])).
  destruct (context_repeats_silent l s n o' _ (wf_reached pats w _) Ho' Ht' Hl)
    as (Hc & Hw & _).
  auto.
Qed.

(** ** As soon as both sides have matched *)

(** Between two calls, no context is waiting to be reported. *)
Lemma context_never_pending (pats : list RegExp) (w : W) (ops : list Op) :
  context_due handleContext (reached1 pats w ops) = false.
Proof.
  unfold reached.
  apply (run_invariant (fun st => context_due handleContext st = false));
    [|apply wf_fresh|unfold context_due; simpl; rewrite andb_false_r; reflexivity].
  assert (Hseen : forall x : State W, context_due handleContext (report_state1 x) = false).
  { intros x. destruct (report_state_effect x) as (_ & Hr & Hm).
    destruct (report_state_frame x) as (_ & _ & _ & Hc).
    unfold context_due in *. rewrite Hr, Hm, Hc. unfold module_due.
    destruct (truthy_obj handleContext), (truthy_obj handleModule),
             (truthy_str (lastContext x)), (truthy_str (lastModule x)) eqn:E,
             (reportedContext x); simpl; rewrite ?E; reflexivity. }
  intros op st Hwf. revert op st Hwf.
  apply (step_cases (fun _ st st' =>
           context_due handleContext st = false ->
           context_due handleContext st' = false));
    try (intros; simpl; auto; fail).
  - intros. apply Hseen.
  - intros. apply Hseen.
Qed.

(** X12. When [handleContext] was passed, it has been called as soon as
    both sides have matched: in any state in which [lastContext] and
    [lastModule] are both truthy, its one call is in the trace. *)
Theorem context_reported_once_both_matched
    (hc : ContextHandler W) (pats : list RegExp) (w : W) (ops : list Op) :
  handleContext = Some hc ->
  truthy_str (lastContext (reached1 pats w ops)) = true ->
  truthy_str (lastModule (reached1 pats w ops)) = true ->
  context_calls (calls (reached1 pats w ops)) = 1.
Proof.
  intros Hhc Hc Hm. rewrite context_calls_reported.
  pose proof (context_never_pending pats w ops) as Hp.
  assert (Hobj : truthy_obj handleContext = true) by (rewrite Hhc; reflexivity).
  unfold context_due in Hp. rewrite Hobj, Hc, Hm in Hp. simpl in Hp.
  apply negb_false_iff in Hp. rewrite Hp. reflexivity.
Qed.

End Properties.

(** * Scenarios *)

(** C5. With handlers that push ['ctx', c] and ['mod', m] on a log, and an
    engine for which the context pattern matches "/icons" twice and the
    module pattern matches "a.svg" and then "b.svg": after
    context.test("/icons"), module.test("a.svg"), module.test("b.svg"),
    context.test("/icons"), the log is ['ctx','/icons'], ['mod','a.svg'],
    ['mod','b.svg']. *)
Theorem end_to_end_log
    (native_test : RegExp -> string -> bool * Z) (regexpClone : RegExp -> RegExp)
    (pc pm : RegExp) :
  native_results native_test (regexpClone pc) ["/icons"; "/icons"] = [true; true] ->
  native_results native_test (regexpClone pm) ["a.svg"; "b.svg"] = [true; true] ->
  world (reached native_test regexpClone (Some log_ctx) (Some log_mod)
                 [pc; pm] [] icons_scenario)
  = [("ctx", Some "/icons"); ("mod", Some "a.svg"); ("mod", Some "b.svg")].
Proof.
  intros Hc Hm. simpl in Hc, Hm.
  injection Hc as Hc1 Hc2. injection Hm as Hm1 Hm2.
  cbv in Hc1, Hc2, Hm1, Hm2. cbv.
  repeat match goal with
         | |- context [native_test ?r ?s] =>
             let E := fresh "E" in
             destruct (native_test r s) as [? ?] eqn:E;
             rewrite ?E in *; cbv in *; subst
         end.
  reflexivity.
Qed.

Lemma end_to_end_log_witness :
  world (logged icons_scenario)
  = [("ctx", Some "/icons"); ("mod", Some "a.svg"); ("mod", Some "b.svg")].
Proof.
  apply (end_to_end_log literal_test clone_all
                        (mkRegExp "/" "" 0) (mkRegExp "." "" 0)); reflexivity.
Defined.

(** C1. With both handlers passed and the context pattern matching "/a",
    "/a", "/b", each followed by a module match, [handleContext] is called
    once, for "/a", and never for "/b", although [lastContext] has become
    "/b" and a module was reported in it. *)
Theorem context_reported_once_only :
  fst (run literal_test clone_all (Some log_ctx) (Some log_mod)
           contexts_scenario (instrumentContextModule two_patterns []))
  = [Normal (VRef 2); Normal (VRef 3);
     Normal (VBool true); Normal (VBool true);
     Normal (VBool true); Normal (VBool true);
     Normal (VBool true); Normal (VBool true)] /\
  contexts_reported (calls (logged contexts_scenario)) = [Some "/a"] /\
  context_calls (calls (logged contexts_scenario)) = 1 /\
  lastContext (logged contexts_scenario) = Some "/b" /\
  last (calls (logged contexts_scenario))
  = Some (CallModule (Some "m.js") (Some "/b") (Some 2) (Some 3)).
Proof. vm_compute. repeat split. Qed.

(** ** The theorems above, at concrete instrumenters *)

Lemma wrap_only_once_witness :
  (exists st1 : State Log,
      context clone_all 0 (logged []) = (Normal 2, st1) /\
      fst (context clone_all 1
             (snd (run literal_test clone_all (Some log_ctx) (Some log_mod)
                       [OpModule 1; OpTest 2 "/a"] st1)))
      = Throw "`context` can only be called once") /\
  (exists st1 : State Log,
      module clone_all 1 (logged []) = (Normal 2, st1) /\
      fst (module clone_all 0
             (snd (run literal_test clone_all (Some log_ctx) (Some log_mod)
                       [OpTest 2 "a.js"] st1)))
      = Throw "`module` can only be called once").
Proof.
  split.
  - destruct (wrap_only_once literal_test clone_all (Some log_ctx) (Some log_mod)
                two_patterns [] [] 0 _ eq_refl) as [H _].
    destruct (H eq_refl) as (st1 & E & Hthrow).
    exists st1. split; [exact E|apply Hthrow].
  - destruct (wrap_only_once literal_test clone_all (Some log_ctx) (Some log_mod)
                two_patterns [] [] 1 _ eq_refl) as [_ H].
    destruct (H eq_refl) as (st1 & E & Hthrow).
    exists st1. split; [exact E|apply Hthrow].
Defined.

Lemma double_wrap_changes_nothing_witness :
  snd (context clone_all 0 (logged wrap_both)) = logged wrap_both /\
  snd (module clone_all 0 (logged wrap_both)) = logged wrap_both.
Proof.
  split; apply (double_wrap_changes_nothing clone_all (logged wrap_both) 0);
    reflexivity.
Defined.



(** The same with a global pattern that the caller has already used: /ab/g
    at [lastIndex] 2 answers false on "ab", its wrapped copy, which starts
    at 0, answers true. *)
Example wrapped_global_differs_from_original :
  fst (call_test flag_test (Some log_ctx) (Some log_mod) 1 "ab"
         (reached flag_test regexp_clone_gmi (Some log_ctx) (Some log_mod)
                  [mkRegExp "ab" "g" 2] [] [OpContext 0]))
  = Normal true /\
  fst (call_test flag_test (Some log_ctx) (Some log_mod) 0 "ab"
         (reached flag_test regexp_clone_gmi (Some log_ctx) (Some log_mod)
                  [mkRegExp "ab" "g" 2] [] [OpContext 0]))
  = Normal false.
Proof. vm_compute. split; reflexivity. Qed.


Lemma no_report_before_module_match_witness :
  calls (logged (wrap_both ++ [OpTest 2 "/a"; OpTest 3 "README"; OpTest 2 "/b"])) = [] /\
  world (logged (wrap_both ++ [OpTest 2 "/a"; OpTest 3 "README"; OpTest 2 "/b"])) = [].
Proof.
  apply (no_report_before_module_match literal_test clone_all
           (Some log_ctx) (Some log_mod) two_patterns []).
  vm_compute. reflexivity.
Defined.

Lemma empty_string_is_no_match_witness :
  lastContext
    (snd (call_test literal_test (Some log_ctx) (Some log_mod) 2 ""
            (reached literal_test clone_all (Some log_ctx) (Some log_mod)
                     any_patterns [] (wrap_both ++ [OpTest 3 "a.js"]))))
  = Some "" /\
  calls
    (snd (step literal_test clone_all (Some log_ctx) (Some log_mod) (OpTest 3 "b.js")
            (reached literal_test clone_all (Some log_ctx) (Some log_mod)
                     any_patterns [] (wrap_both ++ [OpTest 3 "a.js"; OpTest 2 ""]))))
  = [].
Proof.
  split.
  - destruct (empty_string_is_no_match literal_test clone_all
                (Some log_ctx) (Some log_mod) any_patterns []
                (wrap_both ++ [OpTest 3 "a.js"])) as [H _].
    destruct (H 2 _ eq_refl eq_refl) as [Hc _]. apply Hc. reflexivity.
  - destruct (empty_string_is_no_match literal_test clone_all
                (Some log_ctx) (Some log_mod) any_patterns []
                (wrap_both ++ [OpTest 3 "a.js"; OpTest 2 ""])) as [_ H].
    apply (H (OpTest 3 "b.js")). left. reflexivity.
Defined.

Lemma missing_handler_is_skipped_witness :
  context_calls
    (calls (reached literal_test clone_all None (Some log_mod)
                    two_patterns [] icons_scenario)) = 0 /\
  (exists st' : State Log,
      call_test literal_test None (Some log_mod) 3 "a.svg"
                (reached literal_test clone_all None (Some log_mod)
                         two_patterns [] (wrap_both ++ [OpTest 2 "/icons"]))
      = (Normal true, st') /\
      calls st' = [CallModule (Some "a.svg") (Some "/icons") (Some 2) (Some 3)] /\
      world st' = [("mod", Some "a.svg")]) /\
  (exists st' : State Log,
      call_test literal_test None (Some log_mod) 2 "/icons"
                (reached literal_test clone_all None (Some log_mod)
                         two_patterns [] (wrap_both ++ [OpTest 3 "a.svg"]))
      = (Normal true, st') /\
      calls st' = [CallModule (Some "a.svg") (Some "/icons") (Some 2) (Some 3)]) /\
  module_calls
    (calls (reached literal_test clone_all (Some log_ctx) None
                    two_patterns [] icons_scenario)) = 0 /\
  (exists st' : State Log,
      call_test literal_test (Some log_ctx) None 3 "a.svg"
                (reached literal_test clone_all (Some log_ctx) None
                         two_patterns [] (wrap_both ++ [OpTest 2 "/icons"]))
      = (Normal true, st') /\
      calls st' = [CallContext (Some "/icons") (Some 2) (Some 3)] /\
      world st' = [("ctx", Some "/icons")]).
Proof.
  split; [|split; [|split; [|split]]].
  - destruct (missing_handler_is_skipped literal_test clone_all None (Some log_mod)
                two_patterns [] icons_scenario) as (_ & _ & H & _).
    exact (proj1 (H eq_refl)).
  - destruct (missing_handler_is_skipped literal_test clone_all None (Some log_mod)
                two_patterns [] (wrap_both ++ [OpTest 2 "/icons"]))
      as (_ & _ & H & _).
    destruct (H eq_refl) as (_ & _ & Hm & _).
    destruct (Hm log_mod 3 _ "a.svg" eq_refl eq_refl eq_refl eq_refl eq_refl
                 ltac:(discriminate)) as (st' & E & Hc & Hw & _).
    exists st'. auto.
  - destruct (missing_handler_is_skipped literal_test clone_all None (Some log_mod)
                two_patterns [] (wrap_both ++ [OpTest 3 "a.svg"]))
      as (_ & _ & H & _).
    destruct (H eq_refl) as (_ & _ & _ & Hc).
    destruct (Hc log_mod 2 _ "/icons" "a.svg" eq_refl eq_refl eq_refl eq_refl
                 ltac:(discriminate) eq_refl eq_refl ltac:(discriminate))
      as (st' & E & Hcalls & _).
    exists st'. auto.
  - destruct (missing_handler_is_skipped literal_test clone_all (Some log_ctx) None
                two_patterns [] icons_scenario) as (_ & _ & _ & H).
    exact (proj1 (H eq_refl)).
  - destruct (missing_handler_is_skipped literal_test clone_all (Some log_ctx) None
                two_patterns [] (wrap_both ++ [OpTest 2 "/icons"]))
      as (_ & _ & _ & H).
    destruct (H eq_refl) as (_ & _ & Hm & _).
    destruct (Hm log_ctx 3 _ "a.svg" eq_refl eq_refl eq_refl eq_refl eq_refl
                 eq_refl ltac:(discriminate) eq_refl) as (st' & E & Hc & Hw & _).
    exists st'. auto.
Defined.

Lemma module_reported_then_cleared_witness :
  exists st1 st2 st3 : State Log,
    call_test literal_test (Some log_ctx) (Some log_mod) 3 "x.js"
              (logged (wrap_both ++ [OpTest 2 "/c"])) = (Normal true, st1) /\
    call_test literal_test (Some log_ctx) (Some log_mod) 3 "x.js" st1
    = (Normal true, st2) /\
    call_test literal_test (Some log_ctx) (Some log_mod) 3 "y.js" st2
    = (Normal true, st3) /\
    lastModule st1 = None /\
    modules_reported (calls st3) = [Some "x.js"; Some "x.js"; Some "y.js"].
Proof.
  destruct (module_reported_then_cleared literal_test clone_all
              (Some log_ctx) (Some log_mod) two_patterns []
              (wrap_both ++ [OpTest 2 "/c"])) as (_ & _ & _ & H).
  apply (H log_mod 3 _ eq_refl eq_refl eq_refl eq_refl eq_refl).
Defined.

(** ** Patterns with a match position *)

(** A sticky pattern moves its [lastIndex]; wrapped, it answers as the
    engine does, test after test. *)
Example sticky_pattern_wrapped :
  test_results sticky_test (Some log_ctx) (Some log_mod) 1 ["abab"; "abab"; "abab"]
               (reached sticky_test clone_all (Some log_ctx) (Some log_mod)
                        [mkRegExp "ab" "y" 0] [] [OpContext 0])
  = [Normal true; Normal true; Normal false].
Proof. reflexivity. Qed.

(** Where the copy starts is up to [regexp-clone]: one that does not copy
    [lastIndex] gives a wrapped pattern that starts at 0, wherever the
    caller's object is. *)
Example clone_decides_start :
  fst (sticky_test (mkRegExp "ab" "y" 2) "abab") = true /\
  test_results sticky_test (Some log_ctx) (Some log_mod) 1 ["abab"]
               (reached sticky_test clone_all (Some log_ctx) (Some log_mod)
                        [mkRegExp "ab" "y" 2] [] [OpContext 0])
  = [Normal true] /\
  heap (reached sticky_test clone_rewind (Some log_ctx) (Some log_mod)
                [mkRegExp "ab" "y" 2] [] [OpContext 0]) !! 1
  = Some (mkObj (mkRegExp "ab" "y" 0) ContextWrapper).
Proof. repeat split. Qed.

(** ** Further properties, at concrete instrumenters *)

Lemma handler_calls_well_formed_witness :
  call_well_formed (Some 2) (Some 3)
                   (CallModule (Some "a.svg") (Some "/icons") (Some 2) (Some 3)).
Proof.
  destruct (handler_calls_well_formed literal_test clone_all
              (Some log_ctx) (Some log_mod) two_patterns [] icons_scenario
              (CallModule (Some "a.svg") (Some "/icons") (Some 2) (Some 3)))
    as [H _].
  - vm_compute. auto.
  - exact H.
Defined.

Lemma context_call_comes_first_witness :
  context_first true true (calls (logged icons_scenario)).
Proof.
  apply (context_call_comes_first literal_test clone_all
           (Some log_ctx) (Some log_mod) log_ctx two_patterns [] icons_scenario
           eq_refl).
Defined.

Lemma pending_module_reported_at_context_witness :
  exists st' : State Log,
    call_test literal_test (Some log_ctx) (Some log_mod) 2 "/c"
              (logged (wrap_both ++ [OpTest 3 "a.js"])) = (Normal true, st') /\
    modules_reported (calls st') = [Some "a.js"] /\
    lastModule st' = None /\ lastContext st' = Some "/c".
Proof.
  destruct (pending_module_reported_at_context literal_test clone_all
              (Some log_ctx) (Some log_mod) log_mod two_patterns []
              (wrap_both ++ [OpTest 3 "a.js"]) 2 _ "/c" "a.js"
              eq_refl eq_refl eq_refl eq_refl ltac:(discriminate)
              eq_refl eq_refl ltac:(discriminate))
    as (st' & E & Hrep & _ & Hm & Hc).
  exists st'. auto.
Defined.

Lemma silent_tests_witness :
  call_test literal_test (Some log_ctx) (Some log_mod) 0 "/x" (logged icons_scenario)
  = (Normal true,
     set_heap (<[0 := mkObj (mkRegExp "/" "" 0) ProtoTest]>
                 (heap (logged icons_scenario)))
              (logged icons_scenario)).
Proof.
  apply (silent_tests literal_test clone_all (Some log_ctx) (Some log_mod)
           two_patterns [] icons_scenario 0 _ "/x" eq_refl).
  left. reflexivity.
Defined.

Lemma wrapped_patterns_apart_witness :
  2 <> 3 /\
  heap (snd (call_test literal_test (Some log_ctx) (Some log_mod) 2 "/a"
               (logged [OpContext 0; OpModule 0]))) !! 3
  = heap (logged [OpContext 0; OpModule 0]) !! 3.
Proof.
  destruct (wrapped_patterns_apart literal_test clone_all
              (Some log_ctx) (Some log_mod) two_patterns []
              [OpContext 0; OpModule 0] 2 3 eq_refl eq_refl) as [Hne H].
  split; [exact Hne|apply H].
Defined.

Lemma objects_keep_source_flags_test_witness :
  exists o',
    heap (logged (wrap_both ++ [OpTest 2 "/a"])) !! 2 = Some o' /\
    source (fields o') = "/" /\ flags (fields o') = "" /\
    test_prop o' = ContextWrapper.
Proof.
  apply (objects_keep_source_flags_test literal_test clone_all
           (Some log_ctx) (Some log_mod) two_patterns []
           wrap_both [OpTest 2 "/a"] 2 _ eq_refl).
Defined.

Lemma lastContext_written_by_matches_only_witness :
  lastContext (logged ((wrap_both ++ [OpTest 2 "/a"])
                       ++ [OpTest 2 "README"; OpTest 3 "m.js"])) <> None.
Proof.
  apply (proj2 (lastContext_written_by_matches_only literal_test clone_all
                  (Some log_ctx) (Some log_mod) two_patterns []
                  (wrap_both ++ [OpTest 2 "/a"]))).
  intros H. vm_compute in H. discriminate H.
Defined.

Lemma every_module_match_reported_witness :
  modules_reported
    (calls (logged ((wrap_both ++ [OpTest 2 "/c"])
                    ++ (OpTest 3 <$> ["x.js"; "x.js"; "y.js"; "x.js"]))))
  = [Some "x.js"; Some "x.js"; Some "y.js"; Some "x.js"].
Proof.
  apply (every_module_match_reported literal_test clone_all
           (Some log_ctx) (Some log_mod) log_mod two_patterns []
           (wrap_both ++ [OpTest 2 "/c"]) 3 _ ["x.js"; "x.js"; "y.js"; "x.js"]
           eq_refl eq_refl eq_refl eq_refl).
  - repeat constructor; discriminate.
  - reflexivity.
Defined.

Lemma repeated_context_is_silent_witness :
  calls (logged ((wrap_both ++ [OpTest 3 "m.js"])
                 ++ OpTest 2 "/a" :: repeat (OpTest 2 "/a") 3))
  = calls (logged ((wrap_both ++ [OpTest 3 "m.js"]) ++ [OpTest 2 "/a"])).
Proof.
  apply (repeated_context_is_silent literal_test clone_all
           (Some log_ctx) (Some log_mod) two_patterns []
           (wrap_both ++ [OpTest 3 "m.js"]) 2 _ "/a" 3 eq_refl eq_refl eq_refl).
Defined.

Lemma context_reported_once_both_matched_witness :
  context_calls
    (calls (reached literal_test clone_all (Some log_ctx) None two_patterns []
                    (wrap_both ++ [OpTest 3 "a.js"; OpTest 2 "/c"]))) = 1.
Proof.
  apply (context_reported_once_both_matched literal_test clone_all
           (Some log_ctx) None log_ctx two_patterns []
           (wrap_both ++ [OpTest 3 "a.js"; OpTest 2 "/c"]) eq_refl eq_refl eq_refl).
Defined.
